(** * luma.gl [Program]: a shallow embedding of src/webgl/program.js

    The class [Program] wraps a linked WebGL program.  Its methods are
    embedded as functions that take the receiver ([this]) and return
    the updated receiver together with the list of calls issued to the
    collaborators (the WebGL context, the [VertexAttributes] helpers,
    buffers, textures, uniform setters and the logger), in the order
    the code issues them.  A [throw] is a [Throw] outcome that keeps
    whatever had been mutated before it.

    The objects and the array that the class keeps its bookkeeping in
    ([{}] and [[]]) inherit from the prototypes of the host; the names
    they inherit are a parameter, [Host], of every function that reads
    them. *)

From stdpp Require Import gmap strings list fin_maps.
From Stdlib Require Import ZArith.

Local Open Scope Z_scope.

(** ** The GL constant table *)

Module GL.
(** Modelled from the spec: the table [GL] is imported from ./api, which is
    not among the sources; the members used by program.js carry the values
    that the WebGL 1 and WebGL 2 specifications assign to them. *)
Definition TRIANGLES : Z := 4.
Definition UNSIGNED_SHORT : Z := 5123.
Definition ARRAY_BUFFER : Z := 34962.
Definition ELEMENT_ARRAY_BUFFER : Z := 34963.
Definition DELETE_STATUS : Z := 35712.
Definition LINK_STATUS : Z := 35714.
Definition VALIDATE_STATUS : Z := 35715.
Definition ATTACHED_SHADERS : Z := 35717.
Definition ACTIVE_UNIFORMS : Z := 35718.
Definition ACTIVE_ATTRIBUTES : Z := 35721.
Definition ACTIVE_UNIFORM_BLOCKS : Z := 35382.
Definition TRANSFORM_FEEDBACK_BUFFER_MODE : Z := 35967.
Definition TRANSFORM_FEEDBACK_VARYINGS : Z := 35971.
Definition SEPARATE_ATTRIBS : Z := 35981.
End GL.

(** ** Collaborators *)

(** A rendering context: its identity and the two capabilities that
    program.js asks about ([isWebGL2Context(gl)] and
    [gl.getExtension('ANGLE_instanced_arrays')], which is [null] on a
    context that does not offer the extension). *)
Record GLContext := {
  ctx : nat;
  webgl2 : bool;
  instanced_arrays : bool
}.

#[global] Instance GLContext_eq_dec : EqDecision GLContext.
Proof. solve_decision. Defined.

Definition Handle := nat.

(** [buffer.layout]: the [instanced] flag and the element [type]. *)
Record Layout := {
  instanced : bool;
  type : Z
}.

#[global] Instance Layout_eq_dec : EqDecision Layout.
Proof. solve_decision. Defined.

Record Buffer := {
  buffer_handle : Handle;
  target : Z;
  layout : Layout
}.

#[global] Instance Buffer_eq_dec : EqDecision Buffer.
Proof. solve_decision. Defined.

Record Texture := { texture_handle : Handle }.

#[global] Instance Texture_eq_dec : EqDecision Texture.
Proof. solve_decision. Defined.

(** A uniform value handed to [setUniforms]: a [Texture] instance or
    plain numeric data (scalar, vector or matrix, flattened). *)
Inductive Uniform :=
| TextureUniform (texture : Texture)
| DataUniform (data : list Z).

(** What a uniform setter is called with: a texture unit, or the data. *)
Inductive SetterArg :=
| UnitArg (textureIndex : nat)
| DataArg (data : list Z).

(** The two messages given to [log.warn], with the values interpolated
    into them. *)
Inductive Warning :=
| NotSupplied (program : string) (location : nat) (attributeName : string)
| NotUsed (program bufferName : string).

(** What a property read [o[k]] finds on an object literal when it is
    not [undefined]: a property of [o] itself, or the member of
    [Object.prototype] of that name. *)
Inductive Found (V : Type) :=
| Own (v : V)
| Inherited (member : string).
Arguments Own {V} v.
Arguments Inherited {V} member.

(** The errors thrown: the three [new Error(...)] of [setBuffers] and
    [_sortBuffersByLocation], and the [TypeError] of a method call on the
    [null] that [getExtension] returned.  The [location] interpolated
    into the second message of [_sortBuffersByLocation] is whatever
    [this._attributeLocations[bufferName]] read. *)
Inductive Error :=
| ExpectsMapOfBuffers
| DuplicateElementArrayBuffer (program bufferName : string)
| LocationAndElementArrayBuffer (program bufferName : string) (location : Found nat)
| TypeError (what : string).

Inductive Outcome (A : Type) :=
| Ok (a : A)
| Throw (e : Error).
Arguments Ok {A} a.
Arguments Throw {A} e.

Definition is_Throw {A} (o : Outcome A) : bool :=
  match o with Ok _ => false | Throw _ => true end.

(** Every call that leaves the class, in source syntax. *)
Inductive Event :=
| gl_useProgram (g : GLContext) (h : Handle)
| gl_getExtension (g : GLContext) (name : string)
| ext_drawElementsInstancedANGLE (g : GLContext) (mode count ty offset primcount : Z)
| ext_drawArraysInstancedANGLE (g : GLContext) (mode first count primcount : Z)
| gl_drawElements (g : GLContext) (mode count ty offset : Z)
| gl_drawArrays (g : GLContext) (mode first count : Z)
| gl_bindBuffer (g : GLContext) (tgt : Z) (b : option Buffer)
| gl_getProgramParameter (g : GLContext) (h : Handle) (pname : Z)
| VertexAttributes_enable (g : GLContext) (location : nat)
| VertexAttributes_disable (g : GLContext) (location : nat)
| VertexAttributes_setBuffer (g : GLContext) (location : nat) (b : Buffer)
| VertexAttributes_setDivisor (g : GLContext) (location : nat) (divisor : Z)
| Buffer_bind (b : Buffer)
| Texture_bind (t : Texture) (textureIndex : nat)
| uniformSetter_call (uniformName : string) (arg : SetterArg)
| log_warn (priority : nat) (msg : Warning).

(** ** JavaScript objects and arrays *)

(** An object used as a map: its own properties in enumeration order
    ([for ... in]).  [js_get] is the property read [o[k]]. *)
Fixpoint js_get {V} (o : list (string * V)) (k : string) : option V :=
  match o with
  | [] => None
  | (k', v) :: o' => if String.eqb k' k then Some v else js_get o' k
  end.

(** [o[k] = v]: an existing property keeps its place, a new one is added
    at the end. *)
Fixpoint js_put {V} (o : list (string * V)) (k : string) (v : V) : list (string * V) :=
  match o with
  | [] => [(k, v)]
  | (k', v') :: o' =>
      if String.eqb k' k then (k, v) :: o' else (k', v') :: js_put o' k v
  end.

(** [a[i] = x] on an array whose holes read [undefined]: a write past
    the end lengthens the array. *)
Definition js_array_set {A} (a : list (option A)) (i : nat) (x : A) : list (option A) :=
  <[i := Some x]> (a ++ replicate (S i - length a) None).

(** A property key that is [undefined] is read as the string
    ["undefined"]. *)
Definition js_key (k : option string) : string := default "undefined" k.

(** Truthiness of a value that is [null] or a string: the empty string
    is falsy. *)
Definition js_truthy (v : option string) : bool :=
  match v with
  | None => false
  | Some s => negb (String.eqb s "")
  end.

(** ** The prototypes of the host *)

(** The objects that program.js creates with [{}] ([_attributeLocations],
    [_filledLocations], [_uniformSetters]) inherit the properties of the
    host's [Object.prototype], and the array it creates with [[]]
    ([_warn]) those of [Array.prototype] and, behind it, of
    [Object.prototype].  A read [o[k]] that finds no property of [o]
    itself finds the inherited one of that name.  The two sets are the
    names of these properties ([toString], [constructor], ... and
    [values], [keys], ...; [length], which every array has itself, is
    not in [Array_prototype]).  Their values are functions and objects of
    the host: truthy, not [undefined], and not visited by [for ... in].

    [member] says what the member of [Object.prototype] of a name is:
    a function, with whether a call of it without a receiver returns
    ([toString], [constructor]) or throws a [TypeError]
    ([hasOwnProperty], [valueOf], which convert the missing receiver to
    an object); or, at the accessor [__proto__], the prototype itself,
    which is an object and no function.  The host gives
    [Object.prototype] no member of the name [textureIndex]
    ([textureIndex_free]); what the program itself writes there is
    carried by [setUniforms]. *)
Inductive Member :=
| FunctionMember (returns : SetterArg → bool)
| PrototypeMember.

Class Host := {
  Object_prototype : gset string;
  Array_prototype : gset string;
  member : string → Member;
  textureIndex_free : bool_decide ("textureIndex" ∈ Object_prototype) = false
}.

(** The read [o[k]] on an object literal [o]; [None] is [undefined]. *)
Definition js_read {host : Host} {V} (o : list (string * V)) (k : string)
  : option (Found V) :=
  match js_get o k with
  | Some v => Some (Own v)
  | None => if bool_decide (k ∈ Object_prototype) then Some (Inherited k) else None
  end.

(** [o[k]] read as a condition, on an object literal whose own
    properties, the names in [own], all hold [true]. *)
Definition js_has {host : Host} (own : gset string) (k : string) : bool :=
  bool_decide (k ∈ own) || bool_decide (k ∈ Object_prototype).

(** The value of a string of decimal digits, after [acc]. *)
Fixpoint decimal (s : string) (acc : N) : option N :=
  match s with
  | EmptyString => Some acc
  | String c rest =>
      let d := Ascii.N_of_ascii c in
      if ((48 <=? d) && (d <=? 57))%N then decimal rest (10 * acc + (d - 48))%N
      else None
  end.

(** An array index: the canonical decimal form of an integer below
    2^32 - 1. *)
Definition is_array_index (k : string) : bool :=
  match k with
  | EmptyString => false
  | String c rest =>
      if (Ascii.N_of_ascii c =? 48)%N then String.eqb rest ""
      else match decimal k 0 with
           | Some n => (n <? 4294967295)%N
           | None => false
           end
  end.

(** [a[k]] read as a condition, on an array that was created empty and
    whose own properties, the names in [own], were all written as
    [a[k] = true].  Besides the inherited names, [length] is truthy once
    one of the names written is an array index. *)
Definition js_array_has {host : Host} (own : gset string) (k : string) : bool :=
  js_has own k
  || bool_decide (k ∈ Array_prototype)
  || (String.eqb k "length" && existsb is_array_index (elements own)).

(** ** The program *)

(** A uniform setter; [textureIndex] is [undefined] until a texture unit
    is assigned. *)
Record UniformSetter := { textureIndex : option nat }.

Record Program := {
  gl : GLContext;
  handle : Handle;
  id : string;
  _attributeLocations : list (string * nat);
  _attributeCount : nat;
  _warn : gset string;
  _filledLocations : gset string;
  _uniformSetters : gmap string UniformSetter;
  _uniformCount : nat;
  _textureIndexCounter : nat
}.

Definition set_warn (w : gset string) (p : Program) : Program :=
  {| gl := gl p; handle := handle p; id := id p;
     _attributeLocations := _attributeLocations p;
     _attributeCount := _attributeCount p;
     _warn := w;
     _filledLocations := _filledLocations p;
     _uniformSetters := _uniformSetters p;
     _uniformCount := _uniformCount p;
     _textureIndexCounter := _textureIndexCounter p |}.

Definition set_filledLocations (f : gset string) (p : Program) : Program :=
  {| gl := gl p; handle := handle p; id := id p;
     _attributeLocations := _attributeLocations p;
     _attributeCount := _attributeCount p;
     _warn := _warn p;
     _filledLocations := f;
     _uniformSetters := _uniformSetters p;
     _uniformCount := _uniformCount p;
     _textureIndexCounter := _textureIndexCounter p |}.

Definition set_textures (u : gmap string UniformSetter) (c : nat) (p : Program) : Program :=
  {| gl := gl p; handle := handle p; id := id p;
     _attributeLocations := _attributeLocations p;
     _attributeCount := _attributeCount p;
     _warn := _warn p;
     _filledLocations := _filledLocations p;
     _uniformSetters := u;
     _uniformCount := _uniformCount p;
     _textureIndexCounter := c |}.

(** ** The vertex-array state of a context *)

Record GPU := {
  enabled : gset nat;
  attribBuffer : gmap nat Buffer;
  divisors : gmap nat Z;
  bound : gmap Z Buffer
}.

Definition with_enabled (e : gset nat) (s : GPU) : GPU :=
  {| enabled := e; attribBuffer := attribBuffer s;
     divisors := divisors s; bound := bound s |}.

(** Modelled from the spec: ./vertex-attributes and ./buffer are not among
    the sources.  Section 2 and section 6 give the primitives as
    pass-throughs: [enable]/[disable] a numeric slot, [setBuffer] makes the
    buffer the slot's data source, [setDivisor] sets the slot's instancing
    divisor, [buffer.bind()] binds the buffer to its own target, and
    [gl.bindBuffer(target, null)] unbinds the target.  Draw calls, queries,
    texture binds, uniform writes and log output leave this state alone, and
    so do calls made on another context. *)
Definition perform (g : GLContext) (s : GPU) (e : Event) : GPU :=
  match e with
  | VertexAttributes_enable g' i =>
      if decide (g' = g) then with_enabled ({[i]} ∪ enabled s) s else s
  | VertexAttributes_disable g' i =>
      if decide (g' = g) then with_enabled (enabled s ∖ {[i]}) s else s
  | VertexAttributes_setBuffer g' i b =>
      if decide (g' = g)
      then {| enabled := enabled s; attribBuffer := <[i := b]> (attribBuffer s);
              divisors := divisors s; bound := bound s |}
      else s
  | VertexAttributes_setDivisor g' i d =>
      if decide (g' = g)
      then {| enabled := enabled s; attribBuffer := attribBuffer s;
              divisors := <[i := d]> (divisors s); bound := bound s |}
      else s
  | Buffer_bind b =>
      {| enabled := enabled s; attribBuffer := attribBuffer s;
         divisors := divisors s; bound := <[target b := b]> (bound s) |}
  | gl_bindBuffer g' t ob =>
      if decide (g' = g)
      then {| enabled := enabled s; attribBuffer := attribBuffer s;
              divisors := divisors s;
              bound := match ob with
                       | Some b => <[t := b]> (bound s)
                       | None => delete t (bound s)
                       end |}
      else s
  | _ => s
  end.

Definition exec (g : GLContext) (es : list Event) (s : GPU) : GPU :=
  foldl (perform g) s es.

(** ** [unsetBuffers] *)

(** The slots visited by [for (let i = lo; i < hi; ++i)]. *)
Definition range (lo hi : nat) : list nat := seq lo (hi - lo).

Definition unsetBuffers (this : Program) : Program * list Event :=
  let length := _attributeCount this in
  (this,
   (VertexAttributes_disable (gl this) <$> range 1 length)
     ++ [gl_bindBuffer (gl this) GL.ELEMENT_ARRAY_BUFFER None]).

(** ** [setBuffers] and its helpers *)

Record Sorted := {
  locations : list (option string);
  elements : option string
}.

Definition is_element_array (buffer : Buffer) : bool :=
  target buffer =? GL.ELEMENT_ARRAY_BUFFER.

(** [locations[location] = bufferName].  A [location] that is a member
    of [Object.prototype] is converted to a string to serve as the key;
    that string is the text of a function or ["[object Object]"], not an
    array index, so that the write adds a property beside the slots and
    leaves the slots and the length alone. *)
Definition js_array_write {A} (a : list (option A)) (location : Found nat) (x : A)
  : list (option A) :=
  match location with
  | Own i => js_array_set a i x
  | Inherited _ => a
  end.

(** The body of [for (const bufferName in buffers)] in
    [_sortBuffersByLocation], run over the entries that are left.
    [Buffer.makeFrom] is given [Buffer] instances and returns them. *)
Fixpoint sortLoop {host : Host} (this : Program) (entries : list (string * Buffer))
    (locations : list (option string)) (elements : option string)
  : Outcome Sorted * Program * list Event :=
  match entries with
  | [] => (Ok {| locations := locations; elements := elements |}, this, [])
  | (bufferName, buffer) :: rest =>
      match js_read (_attributeLocations this) bufferName with
      | None =>
          if is_element_array buffer && js_truthy elements then
            (Throw (DuplicateElementArrayBuffer (id this) bufferName), this, [])
          else if is_element_array buffer then
            sortLoop this rest locations (Some bufferName)
          else if negb (js_array_has (_warn this) bufferName) then
            let '(o, this', es) :=
              sortLoop (set_warn ({[bufferName]} ∪ _warn this) this)
                       rest locations elements in
            (o, this', log_warn 2 (NotUsed (id this) bufferName) :: es)
          else
            sortLoop this rest locations elements
      | Some location =>
          if is_element_array buffer then
            (Throw (LocationAndElementArrayBuffer (id this) bufferName location),
             this, [])
          else
            sortLoop this rest (js_array_write locations location bufferName) elements
      end
  end.

Definition _sortBuffersByLocation {host : Host} (this : Program)
    (buffers : list (string * Buffer))
  : Outcome Sorted * Program * list Event :=
  sortLoop this buffers (replicate (_attributeCount this) None) None.

(** The body of [for (const attributeName in this._attributeLocations)]
    in [_checkBuffers]. *)
Fixpoint checkLoop {host : Host} (this : Program) (attributes : list (string * nat))
  : Program * list Event :=
  match attributes with
  | [] => (this, [])
  | (attributeName, location) :: rest =>
      if negb (js_has (_filledLocations this) attributeName)
         && negb (js_array_has (_warn this) attributeName) then
        let '(this', es) :=
          checkLoop (set_warn ({[attributeName]} ∪ _warn this) this) rest in
        (this', log_warn 0 (NotSupplied (id this) location attributeName) :: es)
      else
        checkLoop this rest
  end.

Definition _checkBuffers {host : Host} (this : Program) : Program * list Event :=
  checkLoop this (_attributeLocations this).

(** The three fields that [setBuffers] writes into [drawParams];
    [indexType] is [null] when there is no index buffer. *)
Module drawParams.
Record t := {
  isInstanced : bool;
  isIndexed : bool;
  indexType : option Z
}.
End drawParams.

(** The body of [for (let location = 0; location < locations.length;
    ++location)] in [setBuffers], from slot [location] on; it carries
    [drawParams.isInstanced] and [this._filledLocations]. *)
Fixpoint bindLoop (g : GLContext) (buffers : list (string * Buffer))
    (location : nat) (locations : list (option string))
    (isInstanced : bool) (filled : gset string)
  : bool * gset string * list Event :=
  match locations with
  | [] => (isInstanced, filled, [])
  | bufferName :: rest =>
      match js_get buffers (js_key bufferName) with
      | None =>
          let '(i, f, es) :=
            bindLoop g buffers (S location) rest isInstanced filled in
          (i, f, VertexAttributes_disable g location :: es)
      | Some buffer =>
          let divisor := if instanced (layout buffer) then 1 else 0 in
          let '(i, f, es) :=
            bindLoop g buffers (S location) rest
                     (Z.b2z (instanced (layout buffer)) >? 0)
                     ({[js_key bufferName]} ∪ filled) in
          (i, f,
           VertexAttributes_enable g location
             :: VertexAttributes_setBuffer g location buffer
             :: VertexAttributes_setDivisor g location divisor
             :: es)
      end
  end.

Inductive BuffersArg :=
| ArrayOfBuffers (a : list Buffer)
| MapOfBuffers (m : list (string * Buffer)).

Record SetBuffersOpts := {
  clear : bool;
  check : bool
}.

(** [{clear = true, check = true}] *)
Definition defaults : SetBuffersOpts := {| clear := true; check := true |}.

Record SetBuffersRun := {
  outcome : Outcome unit;
  after : Program;
  params : drawParams.t;
  calls : list Event
}.

Definition setBuffers {host : Host} (this : Program) (buffers : BuffersArg)
    (o : SetBuffersOpts) (dp : drawParams.t) : SetBuffersRun :=
  match buffers with
  | ArrayOfBuffers _ =>
      {| outcome := Throw ExpectsMapOfBuffers; after := this;
         params := dp; calls := [] |}
  | MapOfBuffers buffers =>
      let this1 := if clear o then set_filledLocations ∅ this else this in
      let reset := {| drawParams.isInstanced := false;
                      drawParams.isIndexed := false;
                      drawParams.indexType := None |} in
      match _sortBuffersByLocation this1 buffers with
      | (Throw e, this2, es_sort) =>
          {| outcome := Throw e; after := this2; params := reset;
             calls := es_sort |}
      | (Ok sorted, this2, es_sort) =>
          let '(isInstanced, filled, es_bind) :=
            bindLoop (gl this2) buffers 0 (locations sorted)
                     false (_filledLocations this2) in
          let this3 := set_filledLocations filled this2 in
          let unindexed := {| drawParams.isInstanced := isInstanced;
                              drawParams.isIndexed := false;
                              drawParams.indexType := None |} in
          if js_truthy (elements sorted) then
            match js_get buffers (js_key (elements sorted)) with
            | None =>
                {| outcome := Throw (TypeError "buffer"); after := this3;
                   params := unindexed; calls := es_sort ++ es_bind |}
            | Some buffer =>
                let indexed :=
                  {| drawParams.isInstanced := isInstanced;
                     drawParams.isIndexed := true;
                     drawParams.indexType := Some (type (layout buffer)) |} in
                let '(this4, es_check) :=
                  if check o then _checkBuffers this3 else (this3, []) in
                {| outcome := Ok tt; after := this4; params := indexed;
                   calls := es_sort ++ es_bind ++ [Buffer_bind buffer] ++ es_check |}
            end
          else
            let '(this4, es_check) :=
              if check o then _checkBuffers this3 else (this3, []) in
            {| outcome := Ok tt; after := this4; params := unindexed;
               calls := es_sort ++ es_bind ++ es_check |}
      end
  end.

(** ** [setUniforms] *)

(** The [textureIndex] properties that [setUniforms] can leave on
    objects that are not the program's: on the function members of
    [Object.prototype], by the name of the member, and on
    [Object.prototype] itself.  Every object of the host shares these
    objects, and every object that has no [textureIndex] of its own
    inherits the one of [Object.prototype], if there is one. *)
Module Shared.
Record t := {
  on_member : gmap string nat;
  on_prototype : option nat
}.
Definition none : t := {| on_member := ∅; on_prototype := None |}.
End Shared.

(** How a [setUniforms] call ends: its outcome, the [textureIndex]
    properties outside the program, the program and the calls issued. *)
Module Run.
Record t := {
  outcome : Outcome unit;
  shared : Shared.t;
  after : Program;
  calls : list Event
}.
End Run.

(** The read [x.textureIndex] on an object whose own property, if
    any, is [own]: [None] is [undefined]. *)
Definition read_textureIndex (shared : Shared.t) (own : option nat) : option nat :=
  match own with
  | Some index => Some index
  | None => Shared.on_prototype shared
  end.

(** The body of [for (const uniformName in uniforms)].

    When [this._uniformSetters] has no setter of its own under
    [uniformName] but [Object.prototype] has a member of that name, the
    read yields that member, which is truthy, and the branch is entered
    with the member in the place of the setter.  A function member gets
    the [textureIndex] hung on it, and is called without a receiver: it
    returns or throws as the host says.  At [__proto__] the member is
    [Object.prototype] itself: the [textureIndex] is written to it, the
    texture is bound, and the call throws, since the prototype is no
    function.  From then on [textureIndex] is a property that every
    object inherits: the setters that have none of their own read it,
    so that no unit is assigned to them, and [this._uniformSetters]
    reads it, a number, under the name [textureIndex]; a number other
    than 0 is truthy, has the inherited [textureIndex] itself, and
    cannot be called. *)
Definition setUniform {host : Host} (shared : Shared.t) (this : Program)
    (uniformName : string) (uniform : Uniform) : Run.t :=
  let unchanged calls outcome :=
    {| Run.outcome := outcome; Run.shared := shared; Run.after := this;
       Run.calls := calls |} in
  let counted :=
    set_textures (_uniformSetters this) (S (_textureIndexCounter this)) this in
  match _uniformSetters this !! uniformName with
  | Some uniformSetter =>
      match uniform with
      | TextureUniform texture =>
          match read_textureIndex shared (textureIndex uniformSetter) with
          | None =>
              let index := _textureIndexCounter this in
              {| Run.outcome := Ok tt; Run.shared := shared;
                 Run.after :=
                   set_textures
                     (<[uniformName := {| textureIndex := Some index |}]>
                        (_uniformSetters this))
                     (S index) this;
                 Run.calls := [Texture_bind texture index;
                               uniformSetter_call uniformName (UnitArg index)] |}
          | Some index =>
              unchanged [Texture_bind texture index;
                         uniformSetter_call uniformName (UnitArg index)] (Ok tt)
          end
      | DataUniform data =>
          unchanged [uniformSetter_call uniformName (DataArg data)] (Ok tt)
      end
  | None =>
      if bool_decide (uniformName ∈ Object_prototype) then
        match member uniformName, uniform with
        | FunctionMember returns, TextureUniform texture =>
            let called index :=
              if returns (UnitArg index) then Ok tt
              else Throw (TypeError "uniformSetter") in
            match read_textureIndex shared (Shared.on_member shared !! uniformName) with
            | None =>
                let index := _textureIndexCounter this in
                {| Run.outcome := called index;
                   Run.shared :=
                     {| Shared.on_member := <[uniformName := index]> (Shared.on_member shared);
                        Shared.on_prototype := Shared.on_prototype shared |};
                   Run.after := counted;
                   Run.calls := [Texture_bind texture index;
                                 uniformSetter_call uniformName (UnitArg index)] |}
            | Some index =>
                unchanged [Texture_bind texture index;
                           uniformSetter_call uniformName (UnitArg index)]
                          (called index)
            end
        | FunctionMember returns, DataUniform data =>
            unchanged [uniformSetter_call uniformName (DataArg data)]
                      (if returns (DataArg data) then Ok tt
                       else Throw (TypeError "uniformSetter"))
        | PrototypeMember, TextureUniform texture =>
            match Shared.on_prototype shared with
            | None =>
                let index := _textureIndexCounter this in
                {| Run.outcome := Throw (TypeError "uniformSetter");
                   Run.shared :=
                     {| Shared.on_member := Shared.on_member shared;
                        Shared.on_prototype := Some index |};
                   Run.after := counted;
                   Run.calls := [Texture_bind texture index] |}
            | Some index =>
                unchanged [Texture_bind texture index]
                          (Throw (TypeError "uniformSetter"))
            end
        | PrototypeMember, DataUniform data =>
            unchanged [] (Throw (TypeError "uniformSetter"))
        end
      else
        match (if String.eqb uniformName "textureIndex"
               then Shared.on_prototype shared else None) with
        | Some (S index) =>
            match uniform with
            | TextureUniform texture =>
                unchanged [Texture_bind texture (S index)]
                          (Throw (TypeError "uniformSetter"))
            | DataUniform data =>
                unchanged [] (Throw (TypeError "uniformSetter"))
            end
        | _ => unchanged [] (Ok tt)
        end
  end.

(** The loop over the enumerated entries ends at the first step that
    throws. *)
Fixpoint uniformLoop {host : Host} (shared : Shared.t) (this : Program)
    (entries : list (string * Uniform)) : Run.t :=
  match entries with
  | [] => {| Run.outcome := Ok tt; Run.shared := shared; Run.after := this;
             Run.calls := [] |}
  | (uniformName, uniform) :: rest =>
      let r1 := setUniform shared this uniformName uniform in
      match Run.outcome r1 with
      | Throw _ => r1
      | Ok _ =>
          let r2 := uniformLoop (Run.shared r1) (Run.after r1) rest in
          {| Run.outcome := Run.outcome r2; Run.shared := Run.shared r2;
             Run.after := Run.after r2;
             Run.calls := Run.calls r1 ++ Run.calls r2 |}
      end
  end.

(** What [for (const uniformName in uniforms)] visits, with
    [uniforms[uniformName]]: the entries of the map and, after them,
    the enumerable properties that the map inherits.  The members that
    the host gives [Object.prototype] are not enumerable; a
    [textureIndex] that was written to it is, and is visited unless the
    map has an entry of that name.  (The step that writes it throws, so
    that no loop goes on after it.) *)
Definition for_in (shared : Shared.t) (uniforms : list (string * Uniform))
  : list (string * Uniform) :=
  match Shared.on_prototype shared with
  | Some index =>
      if bool_decide ("textureIndex" ∈ uniforms.*1) then uniforms
      else uniforms ++ [("textureIndex", DataUniform [Z.of_nat index])]
  | None => uniforms
  end.

Definition setUniforms {host : Host} (shared : Shared.t) (this : Program)
    (uniforms : list (string * Uniform)) : Run.t :=
  uniformLoop shared this (for_in shared uniforms).

(** ** [use] and [draw] *)

Definition use (this : Program) : Program * list Event :=
  (this, [gl_useProgram (gl this) (handle this)]).

(** The destructured argument of [draw]; a field with a default is
    [None] when the caller leaves it out. *)
Module drawOpts.
Record t := {
  drawMode : option Z;
  vertexCount : Z;
  offset : option Z;
  isIndexed : option bool;
  indexType : option Z;
  isInstanced : option bool;
  instanceCount : option Z
}.
End drawOpts.

Definition draw (this : Program) (g : GLContext) (o : drawOpts.t)
  : Outcome unit * list Event :=
  let drawMode := default GL.TRIANGLES (drawOpts.drawMode o) in
  let vertexCount := drawOpts.vertexCount o in
  let offset := default 0 (drawOpts.offset o) in
  let isIndexed := default false (drawOpts.isIndexed o) in
  let indexType := default GL.UNSIGNED_SHORT (drawOpts.indexType o) in
  let isInstanced := default false (drawOpts.isInstanced o) in
  let instanceCount := default 0 (drawOpts.instanceCount o) in
  let es_use := (use this).2 in
  let extension := instanced_arrays g in
  let es := es_use ++ [gl_getExtension g "ANGLE_instanced_arrays"] in
  if isInstanced && isIndexed then
    if extension then
      (Ok tt, es ++ [ext_drawElementsInstancedANGLE
                       g drawMode vertexCount indexType offset instanceCount])
    else (Throw (TypeError "extension"), es)
  else if isInstanced then
    if extension then
      (Ok tt, es ++ [ext_drawArraysInstancedANGLE
                       g drawMode offset vertexCount instanceCount])
    else (Throw (TypeError "extension"), es)
  else if isIndexed then
    (Ok tt, es ++ [gl_drawElements g drawMode vertexCount indexType offset])
  else
    (Ok tt, es ++ [gl_drawArrays g drawMode offset vertexCount]).

(** ** Queries and [_createHandle] *)

(** What the native context and the helpers of ./uniforms answer; these
    are inputs of the class. *)
Record Env := {
  getProgramParameter : Handle → Z → Z;
  getActiveAttrib : Handle → nat → string;
  getAttribLocation : Handle → string → nat;
  getActiveUniform : Handle → nat → string;
  parseUniformName : string → string
}.

(** The [switch] of [getParameter]: the value returned early, if any. *)
Definition webgl1_default (pname : Z) : option Z :=
  if pname =? GL.ACTIVE_UNIFORMS then Some 0
  else if pname =? GL.TRANSFORM_FEEDBACK_BUFFER_MODE then Some GL.SEPARATE_ATTRIBS
  else if pname =? GL.TRANSFORM_FEEDBACK_VARYINGS then Some 0
  else if pname =? GL.ACTIVE_UNIFORM_BLOCKS then Some 0
  else None.

Definition getParameter (env : Env) (this : Program) (pname : Z) : Z * list Event :=
  match (if negb (webgl2 (gl this)) then webgl1_default pname else None) with
  | Some v => (v, [])
  | None =>
      (getProgramParameter env (handle this) pname,
       [gl_getProgramParameter (gl this) (handle this) pname])
  end.

Definition getAttributeCount (env : Env) (this : Program) : nat :=
  Z.to_nat (getParameter env this GL.ACTIVE_ATTRIBUTES).1.

Definition getUniformCount (env : Env) (this : Program) : nat :=
  Z.to_nat (getParameter env this GL.ACTIVE_UNIFORMS).1.

Definition _getAttributeLocations (env : Env) (this : Program) : list (string * nat) :=
  foldl (λ attributeLocations location,
           let name := getActiveAttrib env (handle this) location in
           js_put attributeLocations name (getAttribLocation env (handle this) name))
        [] (range 0 (getAttributeCount env this)).

Definition _getUniformSetters (env : Env) (this : Program) : gmap string UniformSetter :=
  foldl (λ uniformSetters i,
           let name := parseUniformName env (getActiveUniform env (handle this) i) in
           <[name := {| textureIndex := None |}]> uniformSetters)
        ∅ (range 0 (getUniformCount env this)).

(** [_createHandle], after [_compileAndLink] has succeeded. *)
Definition _createHandle (env : Env) (g : GLContext) (h : Handle) (name : string)
  : Program :=
  let this := {| gl := g; handle := h; id := name;
                 _attributeLocations := []; _attributeCount := 0;
                 _warn := ∅; _filledLocations := ∅;
                 _uniformSetters := ∅; _uniformCount := 0;
                 _textureIndexCounter := 0 |} in
  {| gl := g; handle := h; id := name;
     _attributeLocations := _getAttributeLocations env this;
     _attributeCount := getAttributeCount env this;
     _warn := ∅;
     _filledLocations := ∅;
     _uniformSetters := _getUniformSetters env this;
     _uniformCount := getUniformCount env this;
     _textureIndexCounter := 0 |}.

(** ** [initialize] *)

(** A shader as handed to the constructor: an object with an identity
    ([===] compares it) and a [getName()] that answers a name or nothing. *)
Record Shader := {
  shader_ref : nat;
  getName : option string
}.

#[global] Instance Shader_eq_dec : EqDecision Shader.
Proof. solve_decision. Defined.

(** [SHADERS.DEFAULT] of shaderlib. *)
Record Shaders := {
  DEFAULT_vs : Shader;
  DEFAULT_fs : Shader;
  DEFAULT_defaultUniforms : list (string * Uniform)
}.

Record InitOpts := {
  vs : option Shader;
  fs : option Shader;
  defaultUniforms : option (list (string * Uniform))
}.

Inductive ShaderObject :=
| VertexShader (g : GLContext) (source : Shader)
| FragmentShader (g : GLContext) (source : Shader).

Record ProgramOpts := {
  opts_vs : ShaderObject;
  opts_fs : ShaderObject;
  opts_defaultUniforms : option (list (string * Uniform))
}.

Definition is_undefined {A} (v : option A) : bool :=
  match v with None => true | Some _ => false end.

(** The test of the [if] in [initialize]; [&&] binds tighter than [||]. *)
Definition uses_builtin_uniforms (SHADERS : Shaders) (vs fs : Shader)
    (defaultUniforms : option (list (string * Uniform))) : bool :=
  bool_decide (vs = DEFAULT_vs SHADERS)
  || (bool_decide (fs = DEFAULT_fs SHADERS) && is_undefined defaultUniforms).

(** [initialize]: the [id] assigned to [this] and the three entries
    written to [this.opts].  [uid] is the helper of ../utils. *)
Definition initialize (SHADERS : Shaders) (uid : string → string)
    (g : GLContext) (this_id : option string) (o : InitOpts)
  : string * ProgramOpts :=
  let vs := default (DEFAULT_vs SHADERS) (vs o) in
  let fs := default (DEFAULT_fs SHADERS) (fs o) in
  let defaultUniforms := defaultUniforms o in
  let programName :=
    if js_truthy (getName vs) then getName vs else getName fs in
  let programName :=
    if js_truthy programName
    then (js_key programName ++ "-program")%string else "program" in
  let id := if js_truthy this_id then js_key this_id else uid programName in
  let defaultUniforms :=
    if uses_builtin_uniforms SHADERS vs fs defaultUniforms
    then Some (DEFAULT_defaultUniforms SHADERS) else defaultUniforms in
  (id, {| opts_vs := VertexShader g vs;
          opts_fs := FragmentShader g fs;
          opts_defaultUniforms := defaultUniforms |}).

(** ** Reading calls *)

(** The attribute slot a call acts on, if it acts on one. *)
Definition slot_of (e : Event) : option nat :=
  match e with
  | VertexAttributes_enable _ i
  | VertexAttributes_disable _ i
  | VertexAttributes_setBuffer _ i _
  | VertexAttributes_setDivisor _ i _ => Some i
  | _ => None
  end.

Definition is_setDivisor (e : Event) : bool :=
  match e with VertexAttributes_setDivisor _ _ _ => true | _ => false end.

Definition is_draw_call (e : Event) : bool :=
  match e with
  | ext_drawElementsInstancedANGLE _ _ _ _ _ _
  | ext_drawArraysInstancedANGLE _ _ _ _ _
  | gl_drawElements _ _ _ _ _
  | gl_drawArrays _ _ _ _ => true
  | _ => false
  end.

Definition is_log_warn (e : Event) : bool :=
  match e with log_warn _ _ => true | _ => false end.

(** The two errors of [_sortBuffersByLocation]. *)
Definition is_binding_conflict {A} (o : Outcome A) : bool :=
  match o with
  | Throw (DuplicateElementArrayBuffer _ _)
  | Throw (LocationAndElementArrayBuffer _ _ _) => true
  | _ => false
  end.


(** ** The two index-buffer invariants *)

Definition has_location (this : Program) (bufferName : string) : bool :=
  match js_get (_attributeLocations this) bufferName with
  | Some _ => true
  | None => false
  end.

(** An entry that names no attribute and declares the index target. *)
Definition index_only (this : Program) (entry : string * Buffer) : bool :=
  negb (has_location this entry.1) && is_element_array entry.2.





(** ** Texture units over the life of a program *)

(** The texture unit assigned to the setter of a uniform, if any. *)
Definition unit_of (this : Program) (uniformName : string) : option nat :=
  _uniformSetters this !! uniformName ≫= textureIndex.

(** The texture state that [_createHandle] leaves: the counter at 0 and
    no setter with a unit. *)
Definition just_linked (this : Program) : Prop :=
  _textureIndexCounter this = 0%nat
  ∧ map_Forall (λ _ setter, textureIndex setter = None) (_uniformSetters this).

(** Every assigned unit is below the counter, and no two setters share
    a unit. *)
Definition units_ok (this : Program) : Prop :=
  (∀ n i, unit_of this n = Some i → (i < _textureIndexCounter this)%nat)
  ∧ (∀ n1 n2 i, unit_of this n1 = Some i → unit_of this n2 = Some i → n1 = n2).

(** [this._uniformSetters[uniformName]] is truthy: the program has a
    setter of that name, or [Object.prototype] has a member of that
    name, or the name is [textureIndex] and a number other than 0 was
    written to [Object.prototype] under it. *)
Definition reads_setter {host : Host} (shared : Shared.t) (this : Program)
    (uniformName : string) : bool :=
  bool_decide (is_Some (_uniformSetters this !! uniformName))
  || bool_decide (uniformName ∈ Object_prototype)
  || (String.eqb uniformName "textureIndex"
      && match Shared.on_prototype shared with
         | Some (S _) => true
         | _ => false
         end).

(** [this._uniformSetters[uniformName]] reads a member of
    [Object.prototype]: the program has no setter of that name to put
    before it. *)
Definition reads_member {host : Host} (this : Program) (uniformName : string) : bool :=
  negb (bool_decide (is_Some (_uniformSetters this !! uniformName)))
  && bool_decide (uniformName ∈ Object_prototype).

(** No name of the map reads a member of [Object.prototype] in the
    place of a setter. *)
Definition names_no_member {host : Host} (this : Program)
    (uniforms : list (string * Uniform)) : Prop :=
  Forall (λ entry : string * Uniform, reads_member this entry.1 = false) uniforms.

(** The entry passes a texture under a name that reads
    [Object.prototype] itself. *)
Definition writes_prototype {host : Host} (this : Program) (entry : string * Uniform)
  : bool :=
  reads_member this entry.1
  && match member entry.1, entry.2 with
     | PrototypeMember, TextureUniform _ => true
     | _, _ => false
     end.

(** No entry of the map has [textureIndex] written to [Object.prototype]
    itself. *)
Definition keeps_prototype {host : Host} (this : Program)
    (uniforms : list (string * Uniform)) : Prop :=
  Forall (λ entry : string * Uniform, writes_prototype this entry = false) uniforms.


(** A run of [setUniforms] calls on one program instance, each one
    caught by the caller if it throws. *)
Fixpoint setUniforms_each {host : Host} (shared : Shared.t) (this : Program)
    (maps : list (list (string * Uniform))) : Shared.t * Program :=
  match maps with
  | [] => (shared, this)
  | uniforms :: rest =>
      let r := setUniforms shared this uniforms in
      setUniforms_each (Run.shared r) (Run.after r) rest
  end.

(** ** Concrete programs and inputs *)

(** The host of the examples, which are the statements below that name
    no host: the properties that ECMAScript (up to its 2023 edition,
    annex B included) gives [Object.prototype] and [Array.prototype].
    Called without a receiver, [toString] and [constructor] return,
    [isPrototypeOf] returns when its argument is a texture unit, which
    is no object, and throws when it is the data of a uniform, held in
    an array; the other functions throw. *)
#[global] Instance ecmascript : Host := {|
  Object_prototype :=
    list_to_set
      ["constructor"; "hasOwnProperty"; "isPrototypeOf"; "propertyIsEnumerable";
       "toLocaleString"; "toString"; "valueOf"; "__proto__";
       "__defineGetter__"; "__defineSetter__"; "__lookupGetter__";
       "__lookupSetter__"];
  member := λ name,
    if String.eqb name "__proto__" then PrototypeMember
    else if String.eqb name "toString" || String.eqb name "constructor"
    then FunctionMember (λ _, true)
    else if String.eqb name "isPrototypeOf"
    then FunctionMember (λ arg, match arg with UnitArg _ => true | DataArg _ => false end)
    else FunctionMember (λ _, false);
  Array_prototype :=
    list_to_set
      ["at"; "concat"; "copyWithin"; "entries"; "every"; "fill"; "filter";
       "find"; "findIndex"; "findLast"; "findLastIndex"; "flat"; "flatMap";
       "forEach"; "includes"; "indexOf"; "join"; "keys"; "lastIndexOf"; "map";
       "pop"; "push"; "reduce"; "reduceRight"; "reverse"; "shift"; "slice";
       "some"; "sort"; "splice"; "toReversed"; "toSorted"; "toSpliced";
       "unshift"; "values"; "with"];
  textureIndex_free := eq_refl
|}.

Definition instancing_context : GLContext :=
  {| ctx := 0; webgl2 := false; instanced_arrays := true |}.

Definition plain_context : GLContext :=
  {| ctx := 1; webgl2 := true; instanced_arrays := false |}.

(** A program with two attributes, [instanceOffsets] at slot 0 and
    [positions] at slot 1, and one sampler uniform. *)
Definition example_program (g : GLContext) : Program :=
  {| gl := g; handle := 7%nat; id := "demo-program";
     _attributeLocations := [("instanceOffsets", 0%nat); ("positions", 1%nat)];
     _attributeCount := 2;
     _warn := ∅;
     _filledLocations := ∅;
     _uniformSetters := {["sampler" := {| textureIndex := None |}]};
     _uniformCount := 1;
     _textureIndexCounter := 0 |}.

(** [{isInstanced: true, isIndexed: false, vertexCount: 6,
    instanceCount: 100}] *)
Definition six_vertices_hundred_instances : drawOpts.t :=
  {| drawOpts.drawMode := None; drawOpts.vertexCount := 6;
     drawOpts.offset := None; drawOpts.isIndexed := Some false;
     drawOpts.indexType := None; drawOpts.isInstanced := Some true;
     drawOpts.instanceCount := Some 100 |}.

(** The answers of a context whose linked program has two active
    attributes and three active uniforms. *)
Definition three_uniforms : Env :=
  {| getProgramParameter := λ _ pname,
       if pname =? GL.ACTIVE_UNIFORMS then 3
       else if pname =? GL.ACTIVE_ATTRIBUTES then 2 else 1;
     getActiveAttrib := λ _ i, if decide (i = 0%nat) then "instanceOffsets" else "positions";
     getAttribLocation := λ _ n, if String.eqb n "instanceOffsets" then 0%nat else 1%nat;
     getActiveUniform := λ _ i,
       if decide (i = 0%nat) then "sampler"
       else if decide (i = 1%nat) then "colors[0]" else "opacity";
     parseUniformName := λ n, if String.eqb n "colors[0]" then "colors" else n |}.

Definition shaderlib : Shaders :=
  {| DEFAULT_vs := {| shader_ref := 0; getName := Some "default-vs" |};
     DEFAULT_fs := {| shader_ref := 1; getName := Some "default-fs" |};
     DEFAULT_defaultUniforms := [("opacity", DataUniform [1])] |}.

(** [new Program(gl, {fs: myFs, defaultUniforms: {tint: 7}})] *)
Definition own_fs_own_uniforms : InitOpts :=
  {| vs := None;
     fs := Some {| shader_ref := 2; getName := Some "my-fs" |};
     defaultUniforms := Some [("tint", DataUniform [7])] |}.

Definition vertex_buffer (h : Handle) (inst : bool) : Buffer :=
  {| buffer_handle := h; target := GL.ARRAY_BUFFER;
     layout := {| instanced := inst; type := 5126 |} |}.

Definition index_buffer (h : Handle) : Buffer :=
  {| buffer_handle := h; target := GL.ELEMENT_ARRAY_BUFFER;
     layout := {| instanced := false; type := GL.UNSIGNED_SHORT |} |}.

Definition no_params : drawParams.t :=
  {| drawParams.isInstanced := false; drawParams.isIndexed := false;
     drawParams.indexType := None |}.

(** [{instanceOffsets: <instanced buffer>, positions: <plain buffer>}] *)
Definition instanced_then_plain : list (string * Buffer) :=
  [("instanceOffsets", vertex_buffer 1%nat true);
   ("positions", vertex_buffer 2%nat false)].

(** [{indices: <index buffer>, moreIndices: <index buffer>}] *)
Definition two_index_buffers : list (string * Buffer) :=
  [("indices", index_buffer 3%nat); ("moreIndices", index_buffer 4%nat)].

(** The example program after a [setBuffers] that filled [positions]. *)
Definition filled_program (g : GLContext) : Program :=
  set_filledLocations {["positions"]} (example_program g).

(** [{'': <index buffer>, indices: <index buffer>}] *)
Definition unnamed_index_buffer_first : list (string * Buffer) :=
  [("", index_buffer 3%nat); ("indices", index_buffer 4%nat)].

(** Two textures for the one sampler of the example program. *)
Definition first_texture : list (string * Uniform) :=
  [("sampler", TextureUniform {| texture_handle := 11%nat |})].

Definition second_texture : list (string * Uniform) :=
  [("sampler", TextureUniform {| texture_handle := 12%nat |});
   ("unknown", DataUniform [3])].





(** A context in which slot 0 and slot 5 were left enabled. *)
Definition used_context : GPU :=
  {| enabled := {[0%nat; 5%nat]}; attribBuffer := ∅; divisors := ∅; bound := ∅ |}.

(** ** Further members of the GL table *)

Module GL'.
(** Modelled from the spec: three more members of the table [GL] of ./api
    (not among the sources), with the values of the WebGL specification. *)
Definition FRAGMENT_SHADER : Z := 35632.
Definition VERTEX_SHADER : Z := 35633.
Definition SHADER_TYPE : Z := 35663.
End GL'.

(** ** [_areAllAttributesEnabled] *)

(** Modelled from the spec: [VertexAttributes.isEnabled] of
    ./vertex-attributes (not among the sources) is given in section 6 as
    [isEnabled(slot) -> bool], the query of the slot's enabled flag. *)
Definition isEnabled (s : GPU) (location : nat) : bool :=
  bool_decide (location ∈ enabled s).

(** The body of [for (let i = 0; i < length; ++i)], with its early
    [return false]. *)
Fixpoint allEnabled (s : GPU) (slots : list nat) : bool :=
  match slots with
  | [] => true
  | i :: rest => if negb (isEnabled s i) then false else allEnabled s rest
  end.

Definition _areAllAttributesEnabled (this : Program) (s : GPU) : bool :=
  let length := _attributeCount this in
  allEnabled s (range 0 length).

(** ** [_getOptionsFromHandle] *)

(** The [opts] built by [_getOptionsFromHandle]: the handle wrapped by
    [new VertexShader({handle})] and by [new FragmentShader({handle})]. *)
Record HandleOpts := {
  handle_vs : option Handle;
  handle_fs : option Handle
}.

(** [getAttachedShaders] and [getShaderParameter] are the answers of the
    context.  The type is asked of [this.handle] on every turn of the
    loop. *)
Definition _getOptionsFromHandle
    (getAttachedShaders : Handle → list Handle)
    (getShaderParameter : Handle → Z → Z)
    (this : Program) (h : Handle) : HandleOpts :=
  let shaderHandles := getAttachedShaders h in
  foldl (λ opts shaderHandle,
           let type := getShaderParameter (handle this) GL'.SHADER_TYPE in
           if type =? GL'.VERTEX_SHADER then
             {| handle_vs := Some shaderHandle; handle_fs := handle_fs opts |}
           else if type =? GL'.FRAGMENT_SHADER then
             {| handle_vs := handle_vs opts; handle_fs := Some shaderHandle |}
           else opts)
        {| handle_vs := None; handle_fs := None |} shaderHandles.

(** ** Reading warnings *)



Definition is_Buffer_bind (e : Event) : bool :=
  match e with Buffer_bind _ => true | _ => false end.

(** The uniforms that have a texture unit. *)
Definition with_unit (setters : gmap string UniformSetter) : gmap string UniformSetter :=
  filter (λ entry, is_Some (textureIndex entry.2)) setters.


(** [{positions: <plain buffer>, indices: <index buffer>}] *)
Definition positions_and_indices : list (string * Buffer) :=
  [("positions", vertex_buffer 2%nat false); ("indices", index_buffer 3%nat)].


(** * Properties *)

(** ** The vertex-array state under a list of calls *)

Lemma exec_app g es1 es2 s : exec g (es1 ++ es2) s = exec g es2 (exec g es1 s).
Proof. unfold exec. apply foldl_app. Qed.

Lemma exec_cons g e es s : exec g (e :: es) s = exec g es (perform g s e).
Proof. reflexivity. Qed.


Lemma perform_divisors_unless_setDivisor g s e :
  is_setDivisor e = false → divisors (perform g s e) = divisors s.
Proof. destruct e; simpl; try done; intros _; by case_decide. Qed.

Lemma exec_divisors_unless_setDivisor g es s :
  Forall (λ e, is_setDivisor e = false) es → divisors (exec g es s) = divisors s.
Proof.
  revert s. induction es as [|e es IH]; intros s H; [done|].
  apply Forall_cons in H as [He H].
  rewrite exec_cons, IH by done. by apply perform_divisors_unless_setDivisor.
Qed.

Lemma exec_log_warn g es s :
  Forall (λ e, is_log_warn e = true) es → exec g es s = s.
Proof.
  revert s. induction es as [|e es IH]; intros s H; [done|].
  apply Forall_cons in H as [He H].
  rewrite exec_cons, IH by done. by destruct e.
Qed.

Lemma exec_disable g (l : list nat) s :
  exec g (VertexAttributes_disable g <$> l) s
  = with_enabled (enabled s ∖ list_to_set l) s.
Proof.
  revert s. induction l as [|i l IH]; intros s.
  - destruct s. unfold with_enabled, exec. simpl. f_equal. set_solver.
  - rewrite fmap_cons, exec_cons, IH. simpl. rewrite decide_True by done.
    unfold with_enabled. simpl. f_equal. set_solver.
Qed.

Lemma elem_of_range (i lo hi : nat) : i ∈ range lo hi ↔ (lo ≤ i < hi)%nat.
Proof. unfold range. rewrite elem_of_seq. lia. Qed.

(** ** [unsetBuffers] *)

(** C9: [unsetBuffers] returns the program as it was; it issues a
    [disable] for every slot from 1 to [attributeCount - 1], each of
    which is a disabled slot afterwards; no call of it acts on slot 0,
    whose enabled flag stays as it was, as do the data sources of all
    slots and the enabled flags of the slots from [attributeCount] on;
    its last call binds [null] to ELEMENT_ARRAY_BUFFER, which is unbound
    afterwards.  This holds from every state of the program and of the
    context. *)
Theorem unsetBuffers_disables_slots_from_1 (this : Program) (s : GPU) :
  let es := (unsetBuffers this).2 in
  let s' := exec (gl this) es s in
  (unsetBuffers this).1 = this
  ∧ (∀ i : nat, (1 ≤ i < _attributeCount this)%nat →
       VertexAttributes_disable (gl this) i ∈ es ∧ i ∉ enabled s')
  ∧ (∀ e, e ∈ es → slot_of e ≠ Some 0%nat)
  ∧ (0%nat ∈ enabled s' ↔ 0%nat ∈ enabled s)
  ∧ attribBuffer s' = attribBuffer s
  ∧ (∀ i : nat, (_attributeCount this ≤ i)%nat → i ∈ enabled s' ↔ i ∈ enabled s)
  ∧ last es = Some (gl_bindBuffer (gl this) GL.ELEMENT_ARRAY_BUFFER None)
  ∧ bound s' !! GL.ELEMENT_ARRAY_BUFFER = None.
Proof.
  intros es s'.
  assert (Hs' : s' = perform (gl this)
                   (with_enabled (enabled s ∖ list_to_set (range 1 (_attributeCount this))) s)
                   (gl_bindBuffer (gl this) GL.ELEMENT_ARRAY_BUFFER None)).
  { unfold s', es, unsetBuffers. simpl. by rewrite exec_app, exec_disable. }
  assert (He : enabled s' = enabled s ∖ list_to_set (range 1 (_attributeCount this))).
  { rewrite Hs'. simpl. by rewrite decide_True. }
  split; [done|]. split.
  { intros i Hi. split.
    - unfold es, unsetBuffers. simpl. apply elem_of_app. left.
      apply list_elem_of_fmap. exists i. split; [done|]. by apply elem_of_range.
    - rewrite He. intros [_ Hn]%elem_of_difference. apply Hn.
      apply elem_of_list_to_set. by apply elem_of_range. }
  split.
  { intros e. unfold es, unsetBuffers. simpl.
    intros [H|H]%elem_of_app.
    - apply list_elem_of_fmap in H as (i & -> & Hi). apply elem_of_range in Hi.
      simpl. intros [= ->]. lia.
    - apply list_elem_of_singleton in H as ->. done. }
  split.
  { rewrite He, elem_of_difference, elem_of_list_to_set, elem_of_range.
    split; [tauto|]. intros H. split; [done|lia]. }
  split.
  { rewrite Hs'. simpl. by rewrite decide_True. }
  split.
  { intros i Hi. rewrite He, elem_of_difference, elem_of_list_to_set, elem_of_range.
    split; [tauto|]. intros H. split; [done|lia]. }
  split.
  { unfold es, unsetBuffers. simpl. by rewrite last_snoc. }
  rewrite Hs'. simpl. rewrite decide_True by done. simpl. apply lookup_delete_eq.
Qed.

(** C10: no call of [unsetBuffers] is a [setDivisor], and the divisor of
    every slot after [unsetBuffers] is the divisor it had before. *)
Theorem unsetBuffers_keeps_divisors (this : Program) (s : GPU) :
  Forall (λ e, is_setDivisor e = false) (unsetBuffers this).2
  ∧ divisors (exec (gl this) (unsetBuffers this).2 s) = divisors s
  ∧ ∀ i : nat, divisors (exec (gl this) (unsetBuffers this).2 s) !! i = divisors s !! i.
Proof.
  assert (H : Forall (λ e, is_setDivisor e = false) (unsetBuffers this).2).
  { unfold unsetBuffers. simpl. apply Forall_app. split.
    - apply Forall_fmap, Forall_forall. done.
    - by constructor. }
  split; [done|].
  pose proof (exec_divisors_unless_setDivisor (gl this) _ s H) as Hd.
  split; [done|]. intros i. by rewrite Hd.
Qed.

(** After [setBuffers] has bound an instanced buffer to slot 0 and a
    plain one to slot 1, [unsetBuffers] disables slot 1 only, and the
    divisor of slot 0 is still 1. *)
Example unsetBuffers_after_instanced_setBuffers :
  let g := instancing_context in
  let r := setBuffers (example_program g) (MapOfBuffers instanced_then_plain)
                      defaults no_params in
  let s := exec g (calls r ++ (unsetBuffers (after r)).2) used_context in
  divisors s !! 0%nat = Some 1
  ∧ divisors s !! 1%nat = Some 0
  ∧ bool_decide (enabled s = {[0%nat; 5%nat]}) = true.
Proof. vm_compute. repeat split. Qed.

(** ** [draw] *)

(** C6, as stated, fails on a context that does not offer
    ANGLE_instanced_arrays: with [isInstanced] set, [draw] activates the
    program, asks for the extension, and throws on the [null] it gets;
    no draw call is issued. *)
Lemma draw_instanced_without_extension :
  draw (example_program plain_context) plain_context six_vertices_hundred_instances
  = (Throw (TypeError "extension"),
     [gl_useProgram plain_context 7%nat;
      gl_getExtension plain_context "ANGLE_instanced_arrays"])
  ∧ filter (λ e, is_draw_call e = true)
      (draw (example_program plain_context) plain_context
            six_vertices_hundred_instances).2 = [].
Proof. split; reflexivity. Qed.

(** C6, amended: when the context offers ANGLE_instanced_arrays, or
    [isInstanced] is not set, [draw] succeeds and issues three calls:
    [useProgram] on the program's handle, the extension query, and one
    draw call, which is the one the dispatch table gives with the
    arguments in the order of the table (defaults filled in). *)
Theorem draw_dispatch (this : Program) (g : GLContext) (o : drawOpts.t) :
  instanced_arrays g = true ∨ default false (drawOpts.isInstanced o) = false →
  let drawMode := default GL.TRIANGLES (drawOpts.drawMode o) in
  let vertexCount := drawOpts.vertexCount o in
  let offset := default 0 (drawOpts.offset o) in
  let isIndexed := default false (drawOpts.isIndexed o) in
  let indexType := default GL.UNSIGNED_SHORT (drawOpts.indexType o) in
  let isInstanced := default false (drawOpts.isInstanced o) in
  let instanceCount := default 0 (drawOpts.instanceCount o) in
  ∃ call,
    draw this g o
    = (Ok tt, [gl_useProgram (gl this) (handle this);
               gl_getExtension g "ANGLE_instanced_arrays"; call])
    ∧ filter (λ e, is_draw_call e = true) (draw this g o).2 = [call]
    ∧ (isInstanced = true → isIndexed = true →
       call = ext_drawElementsInstancedANGLE
                g drawMode vertexCount indexType offset instanceCount)
    ∧ (isInstanced = true → isIndexed = false →
       call = ext_drawArraysInstancedANGLE g drawMode offset vertexCount instanceCount)
    ∧ (isInstanced = false → isIndexed = true →
       call = gl_drawElements g drawMode vertexCount indexType offset)
    ∧ (isInstanced = false → isIndexed = false →
       call = gl_drawArrays g drawMode offset vertexCount).
Proof.
  intros Hext. simpl. unfold draw.
  destruct (default false (drawOpts.isInstanced o)) eqn:Hi,
           (default false (drawOpts.isIndexed o)) eqn:Hx; simpl.
  1,2: destruct Hext as [->|?]; [|done].
  all: eexists; split; [reflexivity|]; split; [reflexivity|];
       repeat split; intros; congruence.
Qed.

Lemma draw_dispatch_witness :
  ∃ call,
    draw (example_program instancing_context) instancing_context
         six_vertices_hundred_instances
    = (Ok tt, [gl_useProgram instancing_context 7%nat;
               gl_getExtension instancing_context "ANGLE_instanced_arrays"; call])
    ∧ call = ext_drawArraysInstancedANGLE instancing_context GL.TRIANGLES 0 6 100.
Proof.
  destruct (draw_dispatch (example_program instancing_context) instancing_context
              six_vertices_hundred_instances (or_introl eq_refl))
    as (call & Hd & _ & _ & Hc & _).
  exists call. split; [exact Hd|]. apply Hc; reflexivity.
Defined.

(** ** [getParameter] *)

Lemma getParameter_webgl2 env this pname :
  webgl2 (gl this) = true →
  getParameter env this pname
  = (getProgramParameter env (handle this) pname,
     [gl_getProgramParameter (gl this) (handle this) pname]).
Proof. unfold getParameter. by intros ->. Qed.

(** On the older tier the three parameters that WebGL 1 lacks get their
    defaults without a native call, and every parameter other than
    these and ACTIVE_UNIFORMS is asked of the native query. *)
Lemma getParameter_webgl1 env this pname :
  webgl2 (gl this) = false →
  getParameter env this GL.TRANSFORM_FEEDBACK_VARYINGS = (0, [])
  ∧ getParameter env this GL.ACTIVE_UNIFORM_BLOCKS = (0, [])
  ∧ getParameter env this GL.TRANSFORM_FEEDBACK_BUFFER_MODE = (GL.SEPARATE_ATTRIBS, [])
  ∧ (pname ≠ GL.TRANSFORM_FEEDBACK_VARYINGS → pname ≠ GL.ACTIVE_UNIFORM_BLOCKS →
     pname ≠ GL.TRANSFORM_FEEDBACK_BUFFER_MODE → pname ≠ GL.ACTIVE_UNIFORMS →
     getParameter env this pname
     = (getProgramParameter env (handle this) pname,
        [gl_getProgramParameter (gl this) (handle this) pname])).
Proof.
  intros Hw. unfold getParameter. rewrite Hw. simpl.
  repeat split. intros H1 H2 H3 H4. unfold webgl1_default.
  repeat case_match; try done; lia.
Qed.

(** C3, the failing input: on a WebGL 1 context the count of active
    uniforms is not asked of the native query, which would answer 3; the
    call returns 0 and issues nothing, so [getUniformCount] is 0 and a
    program created there has no uniform setter. *)
Lemma getParameter_ACTIVE_UNIFORMS_on_webgl1 :
  getParameter three_uniforms (example_program instancing_context) GL.ACTIVE_UNIFORMS
  = (0, [])
  ∧ getProgramParameter three_uniforms 7%nat GL.ACTIVE_UNIFORMS = 3
  ∧ getUniformCount three_uniforms (example_program instancing_context) = 0%nat
  ∧ _uniformSetters (_createHandle three_uniforms instancing_context 7%nat "demo-program")
    = ∅.
Proof. repeat split; reflexivity. Qed.

(** ** [initialize] *)

(** The built-in uniforms are taken exactly when the default vertex
    shader is in use, or the default fragment shader is in use and the
    caller gave no [defaultUniforms]. *)
Lemma initialize_defaultUniforms SHADERS uid g this_id o :
  opts_defaultUniforms (initialize SHADERS uid g this_id o).2
  = if bool_decide (default (DEFAULT_vs SHADERS) (vs o) = DEFAULT_vs SHADERS)
       || (bool_decide (default (DEFAULT_fs SHADERS) (fs o) = DEFAULT_fs SHADERS)
           && is_undefined (defaultUniforms o))
    then Some (DEFAULT_defaultUniforms SHADERS)
    else defaultUniforms o.
Proof. reflexivity. Qed.

(** C8, the failing input: with the default vertex shader in use, the
    [defaultUniforms] that the caller supplied are replaced by the
    built-in ones. *)
Lemma initialize_drops_explicit_defaultUniforms :
  opts_defaultUniforms
    (initialize shaderlib (λ n, n) plain_context None own_fs_own_uniforms).2
  = Some [("opacity", DataUniform [1])]
  ∧ defaultUniforms own_fs_own_uniforms = Some [("tint", DataUniform [7])].
Proof. split; reflexivity. Qed.

(** ** [setBuffers]: the instancing flag *)


(** C1, the failing input: slot 0 gets an instanced buffer (its divisor
    is set to 1) and slot 1 a plain one; the call succeeds and leaves
    [drawParams.isInstanced] false, the mark of the buffer bound last. *)
Lemma setBuffers_isInstanced_overwritten :
  let g := instancing_context in
  let r := setBuffers (example_program g) (MapOfBuffers instanced_then_plain)
                      defaults no_params in
  outcome r = Ok tt
  ∧ calls r = [VertexAttributes_enable g 0;
               VertexAttributes_setBuffer g 0 (vertex_buffer 1%nat true);
               VertexAttributes_setDivisor g 0 1;
               VertexAttributes_enable g 1;
               VertexAttributes_setBuffer g 1 (vertex_buffer 2%nat false);
               VertexAttributes_setDivisor g 1 0]
  ∧ drawParams.isInstanced (params r) = false.
Proof. vm_compute. repeat split. Qed.

(** ** [_sortBuffersByLocation] *)

Lemma set_warn_id p : set_warn (_warn p) p = p.
Proof. by destruct p. Qed.

(** The loop writes no field of the program but [_warn], and all its
    calls are warnings. *)
Lemma sortLoop_this {host : Host} entries : ∀ this locs el,
  (sortLoop this entries locs el).1.2
  = set_warn (_warn (sortLoop this entries locs el).1.2) this
  ∧ Forall (λ e, is_log_warn e = true) (sortLoop this entries locs el).2.
Proof.
  induction entries as [|[bufferName buffer] rest IH]; intros this locs el; simpl.
  { split; [by rewrite set_warn_id|done]. }
  repeat case_match; simpl; subst;
    try (split; [by rewrite set_warn_id|done]); try apply IH.
  match goal with
  | H : sortLoop ?p rest ?l ?e = _ |- _ =>
      destruct (IH p l e) as [IH1 IH2]; rewrite H in IH1, IH2; simpl in *
  end.
  split; [by rewrite IH1 at 1|by constructor].
Qed.


(** Once an index buffer with a non-empty name is designated, a later
    buffer that declares the index target makes the loop throw. *)
Lemma sortLoop_second_element {host : Host} l2 : ∀ this locs el n2 b2 l3,
  js_truthy el = true → is_element_array b2 = true →
  is_binding_conflict (sortLoop this (l2 ++ (n2, b2) :: l3) locs el).1.1 = true.
Proof.
  induction l2 as [|[bufferName buffer] rest IH]; intros this locs el n2 b2 l3 Hel Hb2;
    simpl.
  { rewrite Hb2, Hel. simpl. by case_match. }
  destruct (js_read (_attributeLocations this) bufferName) as [location|].
  { destruct (is_element_array buffer); [done|]. by apply IH. }
  destruct (is_element_array buffer); simpl.
  { by rewrite Hel. }
  destruct (js_array_has (_warn this) bufferName); simpl; [by apply IH|].
  specialize (IH (set_warn ({[bufferName]} ∪ _warn this) this) locs el n2 b2 l3 Hel Hb2).
  by destruct (sortLoop _ (rest ++ _) locs el) as [[? ?] ?].
Qed.

Lemma sortLoop_two_elements {host : Host} l1 : ∀ this locs el n1 b1 l2 n2 b2 l3,
  is_element_array b1 = true → is_element_array b2 = true → n1 ≠ "" →
  is_binding_conflict
    (sortLoop this (l1 ++ (n1, b1) :: l2 ++ (n2, b2) :: l3) locs el).1.1 = true.
Proof.
  induction l1 as [|[bufferName buffer] rest IH];
    intros this locs el n1 b1 l2 n2 b2 l3 Hb1 Hb2 Hn1; simpl.
  { rewrite Hb1. simpl. destruct (js_read _ n1); [done|].
    destruct (js_truthy el); [done|].
    apply sortLoop_second_element; [|done].
    simpl. apply negb_true_iff, String.eqb_neq. done. }
  destruct (js_read (_attributeLocations this) bufferName) as [location|].
  { destruct (is_element_array buffer); [done|]. by apply IH. }
  destruct (is_element_array buffer); simpl.
  { destruct (js_truthy el); [done|]. by apply IH. }
  destruct (js_array_has (_warn this) bufferName); simpl; [by apply IH|].
  specialize (IH (set_warn ({[bufferName]} ∪ _warn this) this) locs el
                 n1 b1 l2 n2 b2 l3 Hb1 Hb2 Hn1).
  by destruct (sortLoop _ (rest ++ _) locs el) as [[? ?] ?].
Qed.







(** ** [setBuffers]: the error path *)

(** C2, as stated, fails: with [clear] on, [_filledLocations] is emptied
    before the map is sorted, so the duplicate-index error leaves it
    empty and not as it was. *)
Lemma setBuffers_conflict_clears_filledLocations :
  let this := filled_program instancing_context in
  let r := setBuffers this (MapOfBuffers two_index_buffers) defaults no_params in
  outcome r = Throw (DuplicateElementArrayBuffer "demo-program" "moreIndices")
  ∧ _filledLocations this = {["positions"]}
  ∧ _filledLocations (after r) = ∅
  ∧ bool_decide (_filledLocations (after r) = _filledLocations this) = false.
Proof. vm_compute. repeat split. Qed.

(** C2, amended: when two entries of the map declare the index target
    and the one enumerated first has a non-empty name, [setBuffers]
    throws one of the two binding-conflict errors; [_filledLocations] is
    then empty if [clear] is on and as before the call if it is off; no
    other field but [_warn] has changed, and only warnings were issued,
    so that the context is as it was. *)
Theorem setBuffers_two_index_buffers_conflict {host : Host}
    (this : Program) l1 n1 b1 l2 n2 b2 l3 (o : SetBuffersOpts) (dp : drawParams.t)
    (s : GPU) :
  is_element_array b1 = true → is_element_array b2 = true → n1 ≠ "" →
  let r := setBuffers this (MapOfBuffers (l1 ++ (n1, b1) :: l2 ++ (n2, b2) :: l3)) o dp in
  is_binding_conflict (outcome r) = true
  ∧ _filledLocations (after r) = (if clear o then ∅ else _filledLocations this)
  ∧ after r
    = set_warn (_warn (after r))
        (if clear o then set_filledLocations ∅ this else this)
  ∧ exec (gl this) (calls r) s = s.
Proof.
  intros Hb1 Hb2 Hn1 r. unfold r, setBuffers, _sortBuffersByLocation.
  set (this1 := if clear o then set_filledLocations ∅ this else this).
  set (locs := replicate (_attributeCount this1) None).
  pose proof (sortLoop_two_elements l1 this1 locs None n1 b1 l2 n2 b2 l3 Hb1 Hb2 Hn1)
    as Hc.
  destruct (sortLoop_this (l1 ++ (n1, b1) :: l2 ++ (n2, b2) :: l3) this1 locs None)
    as [Ht Hl].
  destruct (sortLoop this1 _ locs None) as [[[sorted|e] this2] es]; simpl in *;
    [done|].
  split; [done|]. split.
  { rewrite Ht. unfold this1. by destruct (clear o). }
  split; [done|]. by apply exec_log_warn.
Qed.

Lemma setBuffers_two_index_buffers_conflict_witness :
  let this := filled_program instancing_context in
  let r := setBuffers this (MapOfBuffers two_index_buffers) defaults no_params in
  is_binding_conflict (outcome r) = true ∧ _filledLocations (after r) = ∅.
Proof.
  intros this r.
  destruct (setBuffers_two_index_buffers_conflict this
              [] "indices" (index_buffer 3%nat) [] "moreIndices" (index_buffer 4%nat) []
              defaults no_params
              {| enabled := ∅; attribBuffer := ∅; divisors := ∅; bound := ∅ |}
              eq_refl eq_refl ltac:(discriminate))
    as (H1 & H2 & _).
  split; [exact H1|exact H2].
Defined.

(** C4, the failing input: the first index buffer is stored under the
    empty name, which is falsy when the second one is tested against
    it; the second is accepted and designated in its place, no error is
    thrown, and it is the one that gets bound. *)
Lemma setBuffers_accepts_second_index_buffer :
  let this := example_program instancing_context in
  (_sortBuffersByLocation this unnamed_index_buffer_first).1.1
  = Ok {| locations := [None; None]; elements := Some "indices" |}
  ∧ outcome (setBuffers this (MapOfBuffers unnamed_index_buffer_first)
                        {| clear := true; check := false |} no_params) = Ok tt
  ∧ calls (setBuffers this (MapOfBuffers unnamed_index_buffer_first)
                      {| clear := true; check := false |} no_params)
    = [VertexAttributes_disable instancing_context 0;
       VertexAttributes_disable instancing_context 1;
       Buffer_bind (index_buffer 4%nat)].
Proof. vm_compute. repeat split. Qed.

(** ** [setUniforms]: texture units *)

Lemma unit_of_assign this n c k m :
  unit_of (set_textures (<[n := {| textureIndex := Some c |}]> (_uniformSetters this))
                        k this) m
  = if decide (n = m) then Some c else unit_of this m.
Proof.
  unfold unit_of. simpl. case_decide as Hnm.
  - subst. by rewrite lookup_insert_eq.
  - by rewrite lookup_insert_ne.
Qed.

(** The loop on a non-empty list: the first entry, and the rest unless
    the first throws. *)
Lemma uniformLoop_cons {host : Host} shared this n u rest :
  uniformLoop shared this ((n, u) :: rest)
  = match Run.outcome (setUniform shared this n u) with
    | Throw _ => setUniform shared this n u
    | Ok _ =>
        let r1 := setUniform shared this n u in
        let r2 := uniformLoop (Run.shared r1) (Run.after r1) rest in
        {| Run.outcome := Run.outcome r2; Run.shared := Run.shared r2;
           Run.after := Run.after r2; Run.calls := Run.calls r1 ++ Run.calls r2 |}
    end.
Proof. done. Qed.

(** While [Object.prototype] has no [textureIndex], the loop visits the
    entries of the map and no other. *)
Lemma for_in_clean shared uniforms :
  Shared.on_prototype shared = None → for_in shared uniforms = uniforms.
Proof. unfold for_in. by intros ->. Qed.


Ltac step_all := unfold setUniform, read_textureIndex; repeat case_match; simplify_eq.

(** What a step does to the units: nothing, or it moves the counter up,
    or it gives the counter to a setter that has no unit and moves the
    counter up. *)
Lemma units_kept this :
  units_ok this →
  units_ok this
  ∧ (_textureIndexCounter this ≤ _textureIndexCounter this)%nat
  ∧ (∀ m i, unit_of this m = Some i → unit_of this m = Some i).
Proof. intros Hok. split; [done|]. split; [lia|done]. Qed.

Lemma units_counted this :
  units_ok this →
  let p := set_textures (_uniformSetters this) (S (_textureIndexCounter this)) this in
  units_ok p
  ∧ (_textureIndexCounter this ≤ _textureIndexCounter p)%nat
  ∧ (∀ m i, unit_of this m = Some i → unit_of p m = Some i).
Proof.
  intros [Hlt Hinj] p. split; [split|split]; simpl.
  - intros m i Hu. specialize (Hlt m i Hu). simpl. lia.
  - exact Hinj.
  - lia.
  - done.
Qed.

Lemma units_assigned this n setter :
  units_ok this →
  _uniformSetters this !! n = Some setter → textureIndex setter = None →
  let p := set_textures
             (<[n := {| textureIndex := Some (_textureIndexCounter this) |}]>
                (_uniformSetters this))
             (S (_textureIndexCounter this)) this in
  units_ok p
  ∧ (_textureIndexCounter this ≤ _textureIndexCounter p)%nat
  ∧ (∀ m i, unit_of this m = Some i → unit_of p m = Some i).
Proof.
  intros [Hlt Hinj] Hs Hi p.
  assert (Hn : unit_of this n = None) by (unfold unit_of; by rewrite Hs).
  split; [split|split].
  - intros m i. unfold p. rewrite unit_of_assign. simpl. case_decide.
    + intros [= <-]. lia.
    + intros H'%Hlt. lia.
  - intros n1 n2 i. unfold p. rewrite !unit_of_assign.
    repeat case_decide; subst; try done.
    + intros [= <-] H'%Hlt. lia.
    + intros H'%Hlt [= <-]. lia.
    + apply Hinj.
  - simpl. lia.
  - intros m i Hm. unfold p. rewrite unit_of_assign. case_decide; [|done]. congruence.
Qed.

(** One uniform of one call: assigned units stay, the counter does not
    go down, and the invariant is kept, whatever the name reads. *)
Lemma setUniform_units {host : Host} shared this n u :
  units_ok this →
  units_ok (Run.after (setUniform shared this n u))
  ∧ (_textureIndexCounter this
     ≤ _textureIndexCounter (Run.after (setUniform shared this n u)))%nat
  ∧ (∀ m i, unit_of this m = Some i →
            unit_of (Run.after (setUniform shared this n u)) m = Some i).
Proof.
  intros Hok. step_all; simpl;
    first [by apply units_kept | by apply units_counted
          | by eapply units_assigned ].
Qed.

Lemma uniformLoop_units {host : Host} entries : ∀ shared this,
  units_ok this →
  units_ok (Run.after (uniformLoop shared this entries))
  ∧ (_textureIndexCounter this
     ≤ _textureIndexCounter (Run.after (uniformLoop shared this entries)))%nat
  ∧ (∀ m i, unit_of this m = Some i →
            unit_of (Run.after (uniformLoop shared this entries)) m = Some i).
Proof.
  induction entries as [|[n u] rest IH]; intros shared this Hok.
  { by apply units_kept. }
  rewrite uniformLoop_cons.
  destruct (setUniform_units shared this n u Hok) as (Hok1 & Hle1 & Hst1).
  destruct (Run.outcome (setUniform shared this n u)) as [[]|e]; [|done].
  destruct (IH (Run.shared (setUniform shared this n u))
               (Run.after (setUniform shared this n u)) Hok1) as (Hok2 & Hle2 & Hst2).
  simpl. split; [done|]. split; [lia|]. intros m i Hm. by apply Hst2, Hst1.
Qed.

Lemma setUniforms_units {host : Host} uniforms shared this :
  units_ok this →
  units_ok (Run.after (setUniforms shared this uniforms))
  ∧ (_textureIndexCounter this
     ≤ _textureIndexCounter (Run.after (setUniforms shared this uniforms)))%nat
  ∧ (∀ m i, unit_of this m = Some i →
            unit_of (Run.after (setUniforms shared this uniforms)) m = Some i).
Proof. apply uniformLoop_units. Qed.

Lemma setUniforms_each_units {host : Host} maps : ∀ shared this,
  units_ok this →
  units_ok (setUniforms_each shared this maps).2
  ∧ (_textureIndexCounter this
     ≤ _textureIndexCounter (setUniforms_each shared this maps).2)%nat
  ∧ (∀ m i, unit_of this m = Some i →
            unit_of (setUniforms_each shared this maps).2 m = Some i).
Proof.
  induction maps as [|uniforms rest IH]; intros shared this Hok.
  { by apply units_kept. }
  simpl.
  destruct (setUniforms_units uniforms shared this Hok) as (Hok1 & Hle1 & Hst1).
  destruct (IH (Run.shared (setUniforms shared this uniforms))
               (Run.after (setUniforms shared this uniforms)) Hok1)
    as (Hok2 & Hle2 & Hst2).
  split; [done|]. split; [lia|]. intros m i Hm. by apply Hst2, Hst1.
Qed.

Lemma just_linked_no_unit this n : just_linked this → unit_of this n = None.
Proof.
  intros [_ Hn]. unfold unit_of.
  destruct (_uniformSetters this !! n) as [setter|] eqn:Hs; [|done].
  simpl. by apply (Hn n setter).
Qed.

Lemma just_linked_units_ok this : just_linked this → units_ok this.
Proof.
  intros Hl. split; intros n; intros; pose proof (just_linked_no_unit this n Hl);
    congruence.
Qed.

(** The setters are never added to or removed. *)
Lemma setUniform_setters {host : Host} shared this n u m :
  is_Some (_uniformSetters (Run.after (setUniform shared this n u)) !! m)
  ↔ is_Some (_uniformSetters this !! m).
Proof.
  step_all; simpl; try done.
  destruct (decide (n = m)) as [->|Hne].
  - rewrite lookup_insert_eq. split; eauto.
  - by rewrite lookup_insert_ne.
Qed.

Lemma uniformLoop_setters {host : Host} entries : ∀ shared this m,
  is_Some (_uniformSetters (Run.after (uniformLoop shared this entries)) !! m)
  ↔ is_Some (_uniformSetters this !! m).
Proof.
  induction entries as [|[n u] rest IH]; intros shared this m; [done|].
  rewrite uniformLoop_cons.
  pose proof (setUniform_setters shared this n u m) as Hs1.
  destruct (Run.outcome (setUniform shared this n u)) as [[]|e]; [|done].
  simpl. by rewrite IH.
Qed.

Lemma setUniforms_setters {host : Host} uniforms shared this m :
  is_Some (_uniformSetters (Run.after (setUniforms shared this uniforms)) !! m)
  ↔ is_Some (_uniformSetters this !! m).
Proof. apply uniformLoop_setters. Qed.


(** ** [setUniforms]: the [textureIndex] of [Object.prototype] *)

(** A step that returns leaves [Object.prototype] as it was: the step
    that writes to it throws. *)
Lemma setUniform_returns {host : Host} shared this n u :
  Run.outcome (setUniform shared this n u) = Ok tt →
  Shared.on_prototype (Run.shared (setUniform shared this n u))
  = Shared.on_prototype shared.
Proof. step_all; simpl; done. Qed.

Lemma uniformLoop_returns {host : Host} entries : ∀ shared this,
  Run.outcome (uniformLoop shared this entries) = Ok tt →
  Shared.on_prototype (Run.shared (uniformLoop shared this entries))
  = Shared.on_prototype shared.
Proof.
  induction entries as [|[n u] rest IH]; intros shared this; [done|].
  rewrite uniformLoop_cons.
  destruct (Run.outcome (setUniform shared this n u)) as [[]|e] eqn:Ho.
  - simpl. intros Hend. rewrite (IH _ _ Hend). by apply setUniform_returns.
  - by rewrite Ho.
Qed.

(** Once written, the [textureIndex] of [Object.prototype] stays. *)
Lemma setUniform_written {host : Host} shared this n u index :
  Shared.on_prototype shared = Some index →
  Shared.on_prototype (Run.shared (setUniform shared this n u)) = Some index.
Proof. intros Hw. step_all; simpl; congruence. Qed.

Lemma reads_member_setters {host : Host} this p :
  (∀ m, is_Some (_uniformSetters p !! m) ↔ is_Some (_uniformSetters this !! m)) →
  ∀ m, reads_member p m = reads_member this m.
Proof.
  intros Hs m. unfold reads_member. by rewrite (bool_decide_ext _ _ (Hs m)).
Qed.

Lemma names_no_member_setters {host : Host} this p :
  (∀ m, is_Some (_uniformSetters p !! m) ↔ is_Some (_uniformSetters this !! m)) →
  ∀ uniforms, names_no_member p uniforms ↔ names_no_member this uniforms.
Proof.
  intros Hs uniforms. unfold names_no_member. apply Forall_proper; [|done].
  intros e. by rewrite (reads_member_setters this p Hs).
Qed.


Lemma names_no_member_keeps {host : Host} this uniforms :
  names_no_member this uniforms → keeps_prototype this uniforms.
Proof.
  intros Hno. eapply Forall_impl; [exact Hno|].
  intros e He. simpl in He. unfold writes_prototype. by rewrite He.
Qed.





(** A step under a name that reads no member, while [Object.prototype]
    has no [textureIndex]: it returns, and it leaves the objects of the
    host alone. *)
Lemma setUniform_no_member {host : Host} shared this n u :
  Shared.on_prototype shared = None →
  reads_member this n = false →
  Run.outcome (setUniform shared this n u) = Ok tt
  ∧ Run.shared (setUniform shared this n u) = shared.
Proof.
  unfold reads_member. intros Hc Hw. revert Hw.
  step_all; simpl; try done.
  all: rewrite bool_decide_eq_false_2 by (by intros [? ?]); simpl.
  all: by rewrite ?bool_decide_eq_true_2 by done.
Qed.

Lemma uniformLoop_no_member {host : Host} entries : ∀ shared this,
  Shared.on_prototype shared = None →
  names_no_member this entries →
  Run.outcome (uniformLoop shared this entries) = Ok tt
  ∧ Run.shared (uniformLoop shared this entries) = shared.
Proof.
  induction entries as [|[n u] rest IH]; intros shared this Hc Hno; [done|].
  apply Forall_cons in Hno as [H1 Hrest]. simpl in H1.
  rewrite uniformLoop_cons.
  destruct (setUniform_no_member shared this n u Hc H1) as [Ho1 Hu1].
  rewrite Ho1. simpl. rewrite Hu1. apply IH; [done|].
  apply names_no_member_setters with this; [|done]. intros m.
  apply setUniform_setters.
Qed.

Lemma setUniforms_no_member {host : Host} uniforms shared this :
  Shared.on_prototype shared = None →
  names_no_member this uniforms →
  Run.outcome (setUniforms shared this uniforms) = Ok tt
  ∧ Run.shared (setUniforms shared this uniforms) = shared.
Proof.
  intros Hc Hno. unfold setUniforms. rewrite (for_in_clean _ _ Hc).
  by apply uniformLoop_no_member.
Qed.



(** ** [setUniforms]: the names that read a member of [Object.prototype] *)

(** [setUniforms({toString: texture})] on the example program, which has
    no setter of that name: [this._uniformSetters.toString] is the
    function of [Object.prototype]; it gets the [textureIndex] 0 hung on
    it, the counter moves to 1, the texture is bound to unit 0, and the
    function is called with 0.  A second call finds the [textureIndex]
    on the function and leaves the counter alone.  Under
    [hasOwnProperty] the call of the function throws, after the counter
    has moved, and the entries after it are not reached.  Under
    [__proto__] the [textureIndex] 0 is written to [Object.prototype],
    the texture is bound and the call throws.  A name that reads
    nothing does nothing. *)
Example setUniforms_member_of_the_prototype :
  let this := example_program plain_context in
  let counted := set_textures (_uniformSetters this) 1 this in
  let texture := {| texture_handle := 11%nat |} in
  let on_toString :=
    {| Shared.on_member := {["toString" := 0%nat]}; Shared.on_prototype := None |} in
  reads_member this "toString" = true
  ∧ setUniforms Shared.none this [("toString", TextureUniform texture)]
    = {| Run.outcome := Ok tt; Run.shared := on_toString; Run.after := counted;
         Run.calls := [Texture_bind texture 0;
                       uniformSetter_call "toString" (UnitArg 0)] |}
  ∧ setUniforms on_toString counted [("toString", TextureUniform texture)]
    = {| Run.outcome := Ok tt; Run.shared := on_toString; Run.after := counted;
         Run.calls := [Texture_bind texture 0;
                       uniformSetter_call "toString" (UnitArg 0)] |}
  ∧ setUniforms Shared.none this [("hasOwnProperty", TextureUniform texture);
                                  ("sampler", TextureUniform texture)]
    = {| Run.outcome := Throw (TypeError "uniformSetter");
         Run.shared := {| Shared.on_member := {["hasOwnProperty" := 0%nat]};
                          Shared.on_prototype := None |};
         Run.after := counted;
         Run.calls := [Texture_bind texture 0;
                       uniformSetter_call "hasOwnProperty" (UnitArg 0)] |}
  ∧ setUniforms Shared.none this [("__proto__", TextureUniform texture)]
    = {| Run.outcome := Throw (TypeError "uniformSetter");
         Run.shared := {| Shared.on_member := ∅; Shared.on_prototype := Some 0%nat |};
         Run.after := counted;
         Run.calls := [Texture_bind texture 0] |}
  ∧ setUniforms Shared.none this [("unknown", TextureUniform texture)]
    = {| Run.outcome := Ok tt; Run.shared := Shared.none; Run.after := this;
         Run.calls := [] |}.
Proof. vm_compute. repeat split. Qed.

(** Once [Object.prototype] has a [textureIndex], here 2: a sampler
    that has no unit of its own is bound to unit 2 and gets none; the
    loop then visits the inherited property [textureIndex], reads the
    number 2 in the place of a setter, and throws on calling it. *)
Example setUniforms_after_the_prototype_is_written :
  let this := set_textures (_uniformSetters (example_program plain_context)) 3
                           (example_program plain_context) in
  let written := {| Shared.on_member := ∅; Shared.on_prototype := Some 2%nat |} in
  for_in written first_texture
  = first_texture ++ [("textureIndex", DataUniform [2])]
  ∧ setUniforms written this first_texture
    = {| Run.outcome := Throw (TypeError "uniformSetter");
         Run.shared := written; Run.after := this;
         Run.calls := [Texture_bind {| texture_handle := 11%nat |} 2;
                       uniformSetter_call "sampler" (UnitArg 2)] |}.
Proof. vm_compute. repeat split. Qed.

Lemma createHandle_just_linked env g h name : just_linked (_createHandle env g h name).
Proof.
  split; [done|]. unfold _createHandle, _getUniformSetters. simpl.
  generalize (range 0 (getUniformCount env
    {| gl := g; handle := h; id := name; _attributeLocations := [];
       _attributeCount := 0; _warn := ∅; _filledLocations := ∅;
       _uniformSetters := ∅; _uniformCount := 0; _textureIndexCounter := 0 |})).
  intros l.
  assert (H : ∀ (m : gmap string UniformSetter),
             map_Forall (λ _ setter, textureIndex setter = None) m →
             map_Forall (λ _ setter, textureIndex setter = None)
               (foldl (λ uniformSetters i,
                         <[parseUniformName env (getActiveUniform env h i)
                           := {| textureIndex := None |}]> uniformSetters) m l)).
  { induction l as [|i l IH]; intros m Hm; simpl; [done|].
    apply IH. by apply map_Forall_insert_2. }
  apply H, map_Forall_empty.
Qed.

(** ** [setUniforms]: the unit of a sampler over the life of a program *)




(** ** [setBuffers]: what a call depends on *)

Lemma checkLoop_this {host : Host} attributes : ∀ this,
  (checkLoop this attributes).1 = set_warn (_warn (checkLoop this attributes).1) this
  ∧ Forall (λ e, is_log_warn e = true) (checkLoop this attributes).2.
Proof.
  induction attributes as [|[attributeName location] rest IH]; intros this; simpl.
  { split; [by rewrite set_warn_id|done]. }
  case_match; [|apply IH].
  destruct (IH (set_warn ({[attributeName]} ∪ _warn this) this)) as [IH1 IH2].
  destruct (checkLoop _ rest) as [this' es]. simpl in *.
  split; [by rewrite IH1 at 1|by constructor].
Qed.










(** ** [setBuffers({})] followed by [setBuffers(map)] *)




(** * Further properties *)

(** ** [getParameter] and the counts *)

(** X1: [getParameter] issues no call exactly when the context is not
    WebGL 2 and the parameter is one of the four of its [switch]; it
    then returns 0, or SEPARATE_ATTRIBS for
    TRANSFORM_FEEDBACK_BUFFER_MODE.  In every other case it issues the
    one native query for that parameter on the program's handle and
    returns its answer. *)
Theorem getParameter_native_or_default (env : Env) (this : Program) (pname : Z) :
  let r := getParameter env this pname in
  (r.2 = [] ↔
     webgl2 (gl this) = false
     ∧ pname ∈ [GL.ACTIVE_UNIFORMS; GL.TRANSFORM_FEEDBACK_BUFFER_MODE;
                GL.TRANSFORM_FEEDBACK_VARYINGS; GL.ACTIVE_UNIFORM_BLOCKS])
  ∧ (r.2 = [] →
     r.1 = if pname =? GL.TRANSFORM_FEEDBACK_BUFFER_MODE then GL.SEPARATE_ATTRIBS else 0)
  ∧ (r.2 ≠ [] →
     r = (getProgramParameter env (handle this) pname,
          [gl_getProgramParameter (gl this) (handle this) pname])).
Proof.
  intros r. subst r. unfold getParameter, webgl1_default.
  rewrite !elem_of_cons, elem_of_nil.
  destruct (webgl2 (gl this)); simpl.
  { split; [|done]. split; [done|]. by intros [? _]. }
  destruct (pname =? GL.ACTIVE_UNIFORMS) eqn:H1.
  { apply Z.eqb_eq in H1 as ->. split; [|done]. split; auto. }
  destruct (pname =? GL.TRANSFORM_FEEDBACK_BUFFER_MODE) eqn:H2.
  { apply Z.eqb_eq in H2 as ->. split; [|done]. split; auto. }
  destruct (pname =? GL.TRANSFORM_FEEDBACK_VARYINGS) eqn:H3.
  { apply Z.eqb_eq in H3 as ->. split; [|done]. split; auto. }
  destruct (pname =? GL.ACTIVE_UNIFORM_BLOCKS) eqn:H4.
  { apply Z.eqb_eq in H4 as ->. split; [|done]. split; auto 6. }
  apply Z.eqb_neq in H1, H2, H3, H4.
  split; [|done]. split; [done|]. intros [_ H]. naive_solver.
Qed.

(** ** Objects: [o[k] = v] and [o[k]] *)

Lemma js_get_put_eq {V} (o : list (string * V)) k v : js_get (js_put o k v) k = Some v.
Proof.
  induction o as [|[k' v'] o IH]; simpl.
  - by rewrite String.eqb_refl.
  - destruct (String.eqb k' k) eqn:Hk; simpl.
    + by rewrite String.eqb_refl.
    + by rewrite Hk.
Qed.

Lemma js_get_put_ne {V} (o : list (string * V)) k k' v :
  k ≠ k' → js_get (js_put o k v) k' = js_get o k'.
Proof.
  intros Hne. induction o as [|[k0 v0] o IH]; simpl.
  - by apply String.eqb_neq in Hne as ->.
  - destruct (String.eqb k0 k) eqn:Hk; simpl.
    + apply String.eqb_eq in Hk as ->. by apply String.eqb_neq in Hne as ->.
    + by rewrite IH.
Qed.

Lemma js_put_keys {V} (o : list (string * V)) k v k' :
  k' ∈ (js_put o k v).*1 ↔ k' = k ∨ k' ∈ o.*1.
Proof.
  induction o as [|[k0 v0] o IH]; simpl.
  - rewrite list_elem_of_singleton, elem_of_nil. tauto.
  - destruct (String.eqb k0 k) eqn:Hk; simpl.
    + apply String.eqb_eq in Hk as ->. rewrite !elem_of_cons. tauto.
    + rewrite !elem_of_cons, IH. tauto.
Qed.

Lemma js_put_NoDup {V} (o : list (string * V)) k v :
  NoDup o.*1 → NoDup (js_put o k v).*1.
Proof.
  induction o as [|[k0 v0] o IH]; simpl; intros Hnd.
  - apply NoDup_singleton.
  - apply NoDup_cons in Hnd as [Hk0 Hnd].
    destruct (String.eqb k0 k) eqn:Hk; simpl.
    + apply String.eqb_eq in Hk as ->. by apply NoDup_cons.
    + apply NoDup_cons. split; [|by apply IH].
      rewrite js_put_keys. intros [->|?]; [|done].
      by rewrite String.eqb_refl in Hk.
Qed.

Lemma js_put_length {V} (o : list (string * V)) k v :
  (length (js_put o k v) ≤ S (length o))%nat.
Proof.
  induction o as [|[k0 v0] o IH]; simpl; [lia|].
  destruct (String.eqb k0 k); simpl; lia.
Qed.

Lemma js_get_Some_entry {V} (o : list (string * V)) k v :
  js_get o k = Some v → (k, v) ∈ o.
Proof.
  induction o as [|[k0 v0] o IH]; simpl; [done|].
  destruct (String.eqb k0 k) eqn:Hk.
  - apply String.eqb_eq in Hk as ->. intros [= ->]. apply elem_of_cons. by left.
  - intros H%IH. apply elem_of_cons. by right.
Qed.

Lemma js_get_None_key {V} (o : list (string * V)) k :
  js_get o k = None ↔ k ∉ o.*1.
Proof.
  induction o as [|[k0 v0] o IH]; simpl.
  - split; [intros _; apply not_elem_of_nil|done].
  - rewrite not_elem_of_cons. destruct (String.eqb k0 k) eqn:Hk.
    + apply String.eqb_eq in Hk as ->. split; [done|]. by intros [? _].
    + apply String.eqb_neq in Hk. rewrite IH. split; [|tauto].
      intros H. split; [congruence|done].
Qed.

(** ** [_createHandle]: what introspection stores *)

Lemma attribute_fold env h (l : list nat) : ∀ o n,
  js_get (foldl (λ attributeLocations location,
                   let name := getActiveAttrib env h location in
                   js_put attributeLocations name (getAttribLocation env h name))
                o l) n
  = if bool_decide (n ∈ getActiveAttrib env h <$> l)
    then Some (getAttribLocation env h n) else js_get o n.
Proof.
  induction l as [|i l IH] using rev_ind; intros o n; [done|].
  rewrite foldl_app, fmap_app. simpl.
  destruct (decide (getActiveAttrib env h i = n)) as [<-|Hne].
  - rewrite js_get_put_eq, bool_decide_eq_true_2; [done|].
    apply elem_of_app. right. by apply list_elem_of_singleton.
  - rewrite js_get_put_ne, IH by done.
    rewrite (bool_decide_ext (n ∈ (getActiveAttrib env h <$> l) ++ [getActiveAttrib env h i])
                             (n ∈ getActiveAttrib env h <$> l)); [done|].
    rewrite elem_of_app, list_elem_of_singleton. naive_solver.
Qed.

Lemma attribute_fold_NoDup env h (l : list nat) : ∀ o,
  NoDup o.*1 →
  NoDup (foldl (λ attributeLocations location,
                  let name := getActiveAttrib env h location in
                  js_put attributeLocations name (getAttribLocation env h name))
               o l).*1
  ∧ (length (foldl (λ attributeLocations location,
                      let name := getActiveAttrib env h location in
                      js_put attributeLocations name (getAttribLocation env h name))
                   o l) ≤ length o + length l)%nat.
Proof.
  induction l as [|i l IH]; intros o Hnd; simpl; [split; [done|simpl; lia]|].
  destruct (IH (js_put o (getActiveAttrib env h i)
                       (getAttribLocation env h (getActiveAttrib env h i))))
    as [H1 H2]; [by apply js_put_NoDup|].
  split; [done|].
  pose proof (js_put_length o (getActiveAttrib env h i)
                (getAttribLocation env h (getActiveAttrib env h i))).
  eapply Nat.le_trans; [apply H2|]. simpl. lia.
Qed.

(** X2: the attribute map that [_createHandle] stores holds, for every
    index below the attribute count, the name of the active attribute at
    that index with the location the context reports for that name; it
    holds nothing else, no name twice, and so at most as many entries
    as the count (fewer when two indices report the same name). *)
Theorem createHandle_attributeLocations (env : Env) (g : GLContext) (h : Handle)
    (name : string) :
  let p := _createHandle env g h name in
  NoDup (_attributeLocations p).*1
  ∧ (length (_attributeLocations p) ≤ _attributeCount p)%nat
  ∧ (∀ i : nat, (i < _attributeCount p)%nat →
       js_get (_attributeLocations p) (getActiveAttrib env h i)
       = Some (getAttribLocation env h (getActiveAttrib env h i)))
  ∧ (∀ n l, js_get (_attributeLocations p) n = Some l →
       l = getAttribLocation env h n
       ∧ ∃ i : nat, (i < _attributeCount p)%nat ∧ getActiveAttrib env h i = n).
Proof.
  intros p. subst p. unfold _createHandle, _getAttributeLocations. simpl.
  set (count := getAttributeCount env _).
  destruct (attribute_fold_NoDup env h (range 0 count) [] (NoDup_nil_2)) as [Hnd Hlen].
  split; [done|]. split.
  { eapply Nat.le_trans; [apply Hlen|]. unfold range. rewrite length_seq. simpl. lia. }
  split.
  - intros i Hi. rewrite attribute_fold, bool_decide_eq_true_2; [done|].
    apply list_elem_of_fmap. exists i. split; [done|]. apply elem_of_range. lia.
  - intros n l. rewrite attribute_fold. case_bool_decide as Hin; [|done].
    intros [= <-]. split; [done|].
    apply list_elem_of_fmap in Hin as (i & -> & Hi). apply elem_of_range in Hi.
    exists i. split; [lia|done].
Qed.

Lemma setter_fold env h (l : list nat) : ∀ (m : gmap string UniformSetter) n,
  foldl (λ uniformSetters i,
           let name := parseUniformName env (getActiveUniform env h i) in
           <[name := {| textureIndex := None |}]> uniformSetters) m l !! n
  = if bool_decide (n ∈ (λ i, parseUniformName env (getActiveUniform env h i)) <$> l)
    then Some {| textureIndex := None |} else m !! n.
Proof.
  induction l as [|i l IH] using rev_ind; intros m n; [done|].
  rewrite foldl_app, fmap_app. simpl.
  destruct (decide (parseUniformName env (getActiveUniform env h i) = n)) as [<-|Hne].
  - rewrite lookup_insert_eq, bool_decide_eq_true_2; [done|].
    apply elem_of_app. right. by apply list_elem_of_singleton.
  - rewrite lookup_insert_ne, IH by done.
    rewrite (bool_decide_ext
               (n ∈ ((λ i, parseUniformName env (getActiveUniform env h i)) <$> l)
                    ++ [parseUniformName env (getActiveUniform env h i)])
               (n ∈ (λ i, parseUniformName env (getActiveUniform env h i)) <$> l));
      [done|].
    rewrite elem_of_app, list_elem_of_singleton. naive_solver.
Qed.

(** ** [setUniforms]: names without a setter *)

Lemma setUniform_no_setter {host : Host} shared this n u :
  reads_setter shared this n = false →
  setUniform shared this n u
  = {| Run.outcome := Ok tt; Run.shared := shared; Run.after := this;
       Run.calls := [] |}.
Proof.
  unfold reads_setter. intros Hn.
  apply orb_false_iff in Hn as [Hn Hnumber]. apply orb_false_iff in Hn as [Hown Hmember].
  apply bool_decide_eq_false in Hown. apply eq_None_not_Some in Hown.
  unfold setUniform. rewrite Hown, Hmember.
  destruct (String.eqb n "textureIndex"); [|done].
  by destruct (Shared.on_prototype shared) as [[|index]|].
Qed.

Lemma uniformLoop_no_setter {host : Host} entries : ∀ shared this,
  (∀ n u, (n, u) ∈ entries → reads_setter shared this n = false) →
  uniformLoop shared this entries
  = {| Run.outcome := Ok tt; Run.shared := shared; Run.after := this;
       Run.calls := [] |}.
Proof.
  induction entries as [|[n u] rest IH]; intros shared this Hnone; [done|].
  rewrite uniformLoop_cons.
  rewrite (setUniform_no_setter shared this n u)
    by (apply (Hnone n u), elem_of_cons; by left).
  simpl. rewrite IH; [done|].
  intros n' u' Hin. apply (Hnone n' u'), elem_of_cons. by right.
Qed.

(** X3: the setters that [_createHandle] stores are those of the parsed
    names of the active uniforms at the indices below the uniform
    count, each without a texture unit; the count is the native
    ACTIVE_UNIFORMS on a WebGL 2 context and 0 otherwise, so that a
    program created on another context has no setter, and [setUniforms]
    does nothing on it with a map that names no member of
    [Object.prototype], as long as [Object.prototype] has no
    [textureIndex].  The counter starts at 0, and [_warn] and
    [_filledLocations] start without an entry of their own, so that
    they read truthy at the inherited names and at no other. *)
Theorem createHandle_uniformSetters {host : Host} (env : Env) (g : GLContext)
    (h : Handle) (name : string) :
  let p := _createHandle env g h name in
  (∀ n, is_Some (_uniformSetters p !! n) ↔
        ∃ i : nat, (i < _uniformCount p)%nat
                   ∧ parseUniformName env (getActiveUniform env h i) = n)
  ∧ (∀ n setter, _uniformSetters p !! n = Some setter → textureIndex setter = None)
  ∧ _uniformCount p
    = (if webgl2 g then Z.to_nat (getProgramParameter env h GL.ACTIVE_UNIFORMS)
       else 0%nat)
  ∧ (webgl2 g = false →
     _uniformSetters p = ∅
     ∧ ∀ shared uniforms,
         Shared.on_prototype shared = None →
         Forall (λ entry : string * Uniform, entry.1 ∉ Object_prototype) uniforms →
         setUniforms shared p uniforms
         = {| Run.outcome := Ok tt; Run.shared := shared; Run.after := p;
              Run.calls := [] |})
  ∧ _textureIndexCounter p = 0%nat ∧ _warn p = ∅ ∧ _filledLocations p = ∅
  ∧ (∀ n, js_has (_filledLocations p) n = true ↔ n ∈ Object_prototype)
  ∧ (∀ n, js_array_has (_warn p) n = true
          ↔ n ∈ Object_prototype ∨ n ∈ Array_prototype).
Proof.
  intros p. subst p. unfold _createHandle, _getUniformSetters. simpl.
  set (count := getUniformCount env _).
  assert (Hcount : count = if webgl2 g
                           then Z.to_nat (getProgramParameter env h GL.ACTIVE_UNIFORMS)
                           else 0%nat).
  { unfold count, getUniformCount, getParameter. simpl. by destruct (webgl2 g). }
  split.
  { intros n. rewrite setter_fold. case_bool_decide as Hin.
    - split; [intros _|eauto].
      apply list_elem_of_fmap in Hin as (i & -> & Hi). apply elem_of_range in Hi.
      exists i. split; [lia|done].
    - rewrite lookup_empty. split; [by intros [? ?]|].
      intros (i & Hi & <-). destruct Hin. apply list_elem_of_fmap. exists i.
      split; [done|]. apply elem_of_range. lia. }
  split.
  { intros n setter. rewrite setter_fold. case_bool_decide; [by intros [= <-]|].
    by rewrite lookup_empty. }
  split; [done|]. split.
  { intros Hw. rewrite Hcount, Hw. unfold range. simpl. split; [done|].
    intros shared uniforms Hc Hno. unfold setUniforms. rewrite (for_in_clean _ _ Hc).
    apply uniformLoop_no_setter. intros n u Hin.
    unfold reads_setter. simpl. rewrite lookup_empty, Hc, andb_false_r, orb_false_r.
    rewrite bool_decide_eq_false_2 by (by intros [? ?]).
    rewrite Forall_forall in Hno. specialize (Hno (n, u) Hin). simpl in Hno.
    by rewrite bool_decide_eq_false_2. }
  split; [done|]. split; [done|]. split; [done|]. split.
  - intros n. unfold js_has.
    rewrite bool_decide_eq_false_2 by set_solver. simpl.
    by rewrite bool_decide_eq_true.
  - intros n. unfold js_array_has, js_has.
    rewrite bool_decide_eq_false_2 by set_solver. rewrite elements_empty. simpl.
    rewrite andb_false_r, orb_false_r, orb_true_iff, !bool_decide_eq_true. done.
Qed.

Lemma reads_setter_step {host : Host} shared this n u m :
  Run.outcome (setUniform shared this n u) = Ok tt →
  reads_setter (Run.shared (setUniform shared this n u))
               (Run.after (setUniform shared this n u)) m
  = reads_setter shared this m.
Proof.
  intros Ho. unfold reads_setter. rewrite (setUniform_returns _ _ _ _ Ho).
  by rewrite (bool_decide_ext _ _ (setUniform_setters shared this n u m)).
Qed.

(** The loop passes over the entries under whose names it reads no
    setter. *)
Lemma uniformLoop_filter {host : Host} entries : ∀ shared0 this0 shared this,
  (∀ m, reads_setter shared this m = reads_setter shared0 this0 m) →
  uniformLoop shared this entries
  = uniformLoop shared this
      (filter (λ entry, reads_setter shared0 this0 entry.1 = true) entries).
Proof.
  induction entries as [|[n u] rest IH]; intros shared0 this0 shared this Hdom; [done|].
  destruct (reads_setter shared0 this0 n) eqn:Hs.
  - rewrite filter_cons_True by done. rewrite !uniformLoop_cons.
    destruct (Run.outcome (setUniform shared this n u)) as [[]|e] eqn:Ho; [|done].
    simpl. rewrite <- (IH shared0 this0); [done|].
    intros m. rewrite <- Hdom. by apply reads_setter_step.
  - rewrite filter_cons_False by (simpl; by rewrite Hs).
    rewrite <- (IH shared0 this0 shared this Hdom).
    rewrite <- Hdom in Hs.
    rewrite uniformLoop_cons, (setUniform_no_setter shared this n u Hs). simpl.
    by destruct (uniformLoop shared this rest).
Qed.

Lemma filter_twice {A} (keep : A → bool) (l : list A) :
  filter (λ x, keep x = true) (filter (λ x, keep x = true) l)
  = filter (λ x, keep x = true) l.
Proof.
  induction l as [|x l IH]; [done|].
  destruct (keep x) eqn:Hx.
  - rewrite filter_cons_True by done. rewrite filter_cons_True by done. by rewrite IH.
  - by rewrite filter_cons_False by (by rewrite Hx).
Qed.

(** What the loop visits on the map without some of its names, less
    those names, is what it visits on the map, less those names. *)
Lemma for_in_filter shared (keep : string → bool) (uniforms : list (string * Uniform)) :
  filter (λ entry, keep entry.1 = true)
         (for_in shared (filter (λ entry, keep entry.1 = true) uniforms))
  = filter (λ entry, keep entry.1 = true) (for_in shared uniforms).
Proof.
  pose proof (filter_twice (λ entry : string * Uniform, keep entry.1) uniforms) as Hf.
  simpl in Hf. unfold for_in.
  destruct (Shared.on_prototype shared) as [index|]; [|done].
  destruct (bool_decide ("textureIndex" ∈ uniforms.*1)) eqn:Hin;
    destruct (bool_decide
                ("textureIndex" ∈ (filter (λ entry, keep entry.1 = true) uniforms).*1))
      eqn:Hinf.
  - done.
  - rewrite filter_app, Hf.
    apply bool_decide_eq_true in Hin. apply bool_decide_eq_false in Hinf.
    apply list_elem_of_fmap in Hin as ([n u] & Hn & Hin). simpl in Hn. subst n.
    destruct (keep "textureIndex") eqn:Hk.
    + destruct Hinf. apply list_elem_of_fmap. exists ("textureIndex", u).
      split; [done|]. apply list_elem_of_filter. by split.
    + rewrite (filter_cons_False _ (_, _)) by (simpl; by rewrite Hk).
      by rewrite app_nil_r.
  - apply bool_decide_eq_false in Hin. apply bool_decide_eq_true in Hinf.
    destruct Hin. apply list_elem_of_fmap in Hinf as (e & He & Hinf).
    apply list_elem_of_filter in Hinf as [_ Hinf].
    apply list_elem_of_fmap. by exists e.
  - by rewrite !filter_app, Hf.
Qed.

(** X4: an entry of the map under whose name [this._uniformSetters]
    reads nothing truthy (the program has no setter of that name,
    [Object.prototype] no member, and no number other than 0 was
    written to [Object.prototype] under it) contributes nothing:
    [setUniforms] does on the map what it does on the map without those
    entries, which is what its loop does on what it visits without
    them; when nothing is left to visit, it returns the program as it
    was and issues no call. *)
Theorem setUniforms_ignores_unknown {host : Host} (shared : Shared.t)
    (this : Program) (uniforms : list (string * Uniform)) :
  setUniforms shared this uniforms
  = setUniforms shared this
      (filter (λ entry, reads_setter shared this entry.1 = true) uniforms)
  ∧ setUniforms shared this uniforms
    = uniformLoop shared this
        (filter (λ entry, reads_setter shared this entry.1 = true)
                (for_in shared uniforms))
  ∧ (filter (λ entry, reads_setter shared this entry.1 = true)
            (for_in shared uniforms) = [] →
     setUniforms shared this uniforms
     = {| Run.outcome := Ok tt; Run.shared := shared; Run.after := this;
          Run.calls := [] |}).
Proof.
  assert (H : ∀ us, setUniforms shared this us
                    = uniformLoop shared this
                        (filter (λ entry, reads_setter shared this entry.1 = true)
                                (for_in shared us))).
  { intros us. unfold setUniforms. by apply uniformLoop_filter. }
  split; [|split; [apply H|]].
  - rewrite (H uniforms), (H (filter _ uniforms)).
    by rewrite (for_in_filter shared (reads_setter shared this)).
  - intros Hnil. by rewrite H, Hnil.
Qed.

Lemma uniformLoop_app {host : Host} first : ∀ shared this second,
  uniformLoop shared this (first ++ second)
  = let r1 := uniformLoop shared this first in
    match Run.outcome r1 with
    | Throw _ => r1
    | Ok _ =>
        let r2 := uniformLoop (Run.shared r1) (Run.after r1) second in
        {| Run.outcome := Run.outcome r2; Run.shared := Run.shared r2;
           Run.after := Run.after r2; Run.calls := Run.calls r1 ++ Run.calls r2 |}
    end.
Proof.
  induction first as [|[n u] rest IH]; intros shared this second.
  { simpl. by destruct (uniformLoop shared this second). }
  rewrite <- app_comm_cons, !uniformLoop_cons.
  destruct (Run.outcome (setUniform shared this n u)) as [[]|e] eqn:Ho1; simpl;
    [|by rewrite Ho1].
  rewrite IH. simpl.
  destruct (Run.outcome (uniformLoop _ _ rest)) as [[]|e] eqn:Ho2; simpl;
    [|by rewrite Ho2].
  by rewrite app_assoc.
Qed.

(** X5: while [Object.prototype] has no [textureIndex], one call with
    the entries of two maps, the first map's first, does what a call
    with the first map does, followed, unless that call throws, by a
    call with the second: the same program results and the same calls
    are issued, in the same order. *)
Theorem setUniforms_app {host : Host} (shared : Shared.t) (this : Program)
    (first second : list (string * Uniform)) :
  Shared.on_prototype shared = None →
  setUniforms shared this (first ++ second)
  = let r1 := setUniforms shared this first in
    match Run.outcome r1 with
    | Throw _ => r1
    | Ok _ =>
        let r2 := setUniforms (Run.shared r1) (Run.after r1) second in
        {| Run.outcome := Run.outcome r2; Run.shared := Run.shared r2;
           Run.after := Run.after r2; Run.calls := Run.calls r1 ++ Run.calls r2 |}
    end.
Proof.
  intros Hc. unfold setUniforms. rewrite !(for_in_clean shared) by done.
  rewrite uniformLoop_app. simpl.
  destruct (Run.outcome (uniformLoop shared this first)) as [[]|e] eqn:Ho; [|done].
  rewrite (for_in_clean (Run.shared _)); [done|].
  by rewrite uniformLoop_returns.
Qed.

Lemma setUniforms_app_witness :
  Run.calls (setUniforms Shared.none (example_program plain_context)
                         (first_texture ++ second_texture))
  = [Texture_bind {| texture_handle := 11%nat |} 0;
     uniformSetter_call "sampler" (UnitArg 0);
     Texture_bind {| texture_handle := 12%nat |} 0;
     uniformSetter_call "sampler" (UnitArg 0)].
Proof.
  rewrite (setUniforms_app Shared.none (example_program plain_context)
             first_texture second_texture eq_refl).
  reflexivity.
Defined.

(** ** [setUniforms]: how many units are in use *)

Ltac clean_cases this n u Hc Hs :=
  unfold setUniform, read_textureIndex; rewrite ?Hc;
  destruct (_uniformSetters this !! n) as [setter|] eqn:Hs;
    [destruct u as [texture|data];
       [destruct (textureIndex setter) as [index|] eqn:Hi|]
    |destruct (bool_decide (n ∈ Object_prototype)) eqn:Hm;
       [|destruct (String.eqb n "textureIndex")]].

Lemma setUniform_dense {host : Host} shared this n u :
  Shared.on_prototype shared = None →
  reads_member this n = false →
  _textureIndexCounter this = size (with_unit (_uniformSetters this)) →
  (∀ i : nat, (i < _textureIndexCounter this)%nat → ∃ m, unit_of this m = Some i) →
  let p := Run.after (setUniform shared this n u) in
  _textureIndexCounter p = size (with_unit (_uniformSetters p))
  ∧ (∀ i : nat, (i < _textureIndexCounter p)%nat → ∃ m, unit_of p m = Some i).
Proof.
  unfold reads_member. intros Hc Hno Hsize Honto. revert Hno.
  clean_cases this n u Hc Hs; simpl; try done.
  intros _. split.
  - unfold with_unit. rewrite map_filter_insert_True by (simpl; eauto).
    rewrite map_size_insert_None; [by rewrite Hsize|].
    apply map_lookup_filter_None. right. intros x Hx. simpl.
    rewrite Hs in Hx. injection Hx as <-. rewrite Hi. by intros [? ?].
  - intros i Hlt. destruct (decide (i = _textureIndexCounter this)) as [->|Hne].
    + exists n. rewrite unit_of_assign. by rewrite decide_True.
    + destruct (Honto i) as [m Hm']; [lia|]. exists m.
      rewrite unit_of_assign. destruct (decide (n = m)) as [Hnm|Hnm]; [|done].
      subst m. unfold unit_of in Hm'. rewrite Hs in Hm'. simpl in Hm'. congruence.
Qed.

Lemma uniformLoop_dense {host : Host} entries : ∀ shared this,
  Shared.on_prototype shared = None →
  names_no_member this entries →
  _textureIndexCounter this = size (with_unit (_uniformSetters this)) →
  (∀ i : nat, (i < _textureIndexCounter this)%nat → ∃ m, unit_of this m = Some i) →
  let p := Run.after (uniformLoop shared this entries) in
  _textureIndexCounter p = size (with_unit (_uniformSetters p))
  ∧ (∀ i : nat, (i < _textureIndexCounter p)%nat → ∃ m, unit_of p m = Some i).
Proof.
  induction entries as [|[n u] rest IH]; intros shared this Hc Hno Hsize Honto; [done|].
  apply Forall_cons in Hno as [Hn Hrest]. simpl in Hn.
  rewrite uniformLoop_cons.
  destruct (setUniform_dense shared this n u Hc Hn Hsize Honto) as [Hsize1 Honto1].
  destruct (setUniform_no_member shared this n u Hc Hn) as [Ho1 Hu1].
  rewrite Ho1. simpl. apply IH; try done.
  - by rewrite Hu1.
  - apply names_no_member_setters with this; [|done]. intros m.
    apply setUniform_setters.
Qed.

(** X6: on a program as [_createHandle] leaves it and while
    [Object.prototype] has no [textureIndex], any run of [setUniforms]
    calls none of which names a member of [Object.prototype] that the
    program has no setter for leaves the objects of the host alone, and
    after it the counter is the number of uniforms that have a texture
    unit; the units in use are exactly the numbers below the counter,
    each in use by some uniform; and the counter is at most the number
    of setters of the program. *)
Theorem setUniforms_units_dense {host : Host} (shared : Shared.t)
    (this : Program) (maps : list (list (string * Uniform))) :
  just_linked this →
  Shared.on_prototype shared = None →
  Forall (names_no_member this) maps →
  let s := setUniforms_each shared this maps in
  s.1 = shared
  ∧ _textureIndexCounter s.2 = size (with_unit (_uniformSetters s.2))
  ∧ (∀ i : nat, (i < _textureIndexCounter s.2)%nat ↔ ∃ n, unit_of s.2 n = Some i)
  ∧ (_textureIndexCounter s.2 ≤ size (_uniformSetters s.2))%nat.
Proof.
  intros Hl Hc Hno s.
  assert (H0 : _textureIndexCounter this = size (with_unit (_uniformSetters this))
               ∧ (∀ i : nat, (i < _textureIndexCounter this)%nat →
                    ∃ m, unit_of this m = Some i)).
  { destruct Hl as [Hz Hn]. rewrite Hz. split; [|intros i; lia].
    symmetry. apply map_size_empty_iff, map_empty. intros n.
    apply map_lookup_filter_None. destruct (_uniformSetters this !! n) eqn:Hs; [|by left].
    right. intros x [= <-]. simpl. rewrite (Hn n u Hs). by intros [? ?]. }
  assert (Hdense : s.1 = shared
                   ∧ _textureIndexCounter s.2 = size (with_unit (_uniformSetters s.2))
                   ∧ (∀ i : nat, (i < _textureIndexCounter s.2)%nat →
                        ∃ m, unit_of s.2 m = Some i)).
  { unfold s. clear s Hl. revert this Hno H0.
    induction maps as [|uniforms rest IH]; intros this Hno [Hs Ho]; [done|].
    apply Forall_cons in Hno as [H1 Hrest]. simpl.
    destruct (setUniforms_no_member uniforms shared this Hc H1) as [_ Hu].
    rewrite Hu. apply IH.
    - eapply Forall_impl; [exact Hrest|]. intros us.
      apply names_no_member_setters. intros m. apply setUniforms_setters.
    - unfold setUniforms. rewrite (for_in_clean _ _ Hc).
      by apply uniformLoop_dense. }
  destruct Hdense as (Hshared & Hsize & Honto).
  destruct (setUniforms_each_units maps shared this (just_linked_units_ok this Hl))
    as ([Hlt _] & _ & _). fold s in Hlt.
  split; [done|]. split; [done|]. split.
  - intros i. split; [apply Honto|]. intros [n Hn]. by apply (Hlt n).
  - rewrite Hsize. apply map_subseteq_size, map_filter_subseteq.
Qed.

Lemma setUniforms_units_dense_witness :
  let this := example_program plain_context in
  let s := setUniforms_each Shared.none this [first_texture; second_texture] in
  s.1 = Shared.none
  ∧ _textureIndexCounter s.2 = 1%nat
  ∧ (_textureIndexCounter s.2 ≤ size (_uniformSetters s.2))%nat.
Proof.
  intros this s.
  assert (Hl : just_linked this).
  { split; [reflexivity|]. apply (bool_decide_unpack _). vm_compute. exact I. }
  assert (Hno : Forall (names_no_member this) [first_texture; second_texture]).
  { repeat constructor. }
  destruct (setUniforms_units_dense Shared.none this [first_texture; second_texture]
              Hl eq_refl Hno) as (Hs & _ & _ & Hle).
  split; [exact Hs|]. split; [reflexivity|exact Hle].
Defined.

(** ** [setUniforms]: what it leaves alone, and what it calls *)








(** ** [draw]: when it fails *)

(** X8: [draw] throws exactly when [isInstanced] is set and the context
    does not offer ANGLE_instanced_arrays.  Whether it throws or not,
    its first two calls are [useProgram] on the program's own context
    and handle and the extension query on the context it was given; it
    issues no draw call when it throws and exactly one when it does
    not, and nothing after the draw call. *)
Theorem draw_throws_iff (this : Program) (g : GLContext) (o : drawOpts.t) :
  let r := draw this g o in
  is_Throw r.1 = default false (drawOpts.isInstanced o) && negb (instanced_arrays g)
  ∧ take 2 r.2 = [gl_useProgram (gl this) (handle this);
                  gl_getExtension g "ANGLE_instanced_arrays"]
  ∧ filter (λ e, is_draw_call e = true) r.2 = drop 2 r.2
  ∧ length (drop 2 r.2) = (if is_Throw r.1 then 0%nat else 1%nat).
Proof.
  simpl. unfold draw.
  destruct (default false (drawOpts.isInstanced o)),
           (default false (drawOpts.isIndexed o)),
           (instanced_arrays g); simpl; repeat split.
Qed.

(** ** [initialize]: which uniforms are kept *)

(** X9: when the caller passes a vertex shader other than the default
    one, [initialize] keeps the [defaultUniforms] the caller passes,
    whichever fragment shader is used; when the caller passes none, the
    built-in ones are taken exactly if one of the two shaders in use is
    the default one, and [opts.defaultUniforms] stays undefined
    otherwise; with the vertex shader left out the built-in ones are
    always taken.  The shaders wrapped into [opts] are the ones passed,
    or the defaults for those left out. *)
Theorem initialize_keeps_defaultUniforms (SHADERS : Shaders) (uid : string → string)
    (g : GLContext) (this_id : option string) (o : InitOpts) :
  let vs' := default (DEFAULT_vs SHADERS) (vs o) in
  let fs' := default (DEFAULT_fs SHADERS) (fs o) in
  let opts := (initialize SHADERS uid g this_id o).2 in
  (vs' ≠ DEFAULT_vs SHADERS →
   ∀ u, defaultUniforms o = Some u → opts_defaultUniforms opts = Some u)
  ∧ (defaultUniforms o = None →
     opts_defaultUniforms opts
     = if bool_decide (vs' = DEFAULT_vs SHADERS ∨ fs' = DEFAULT_fs SHADERS)
       then Some (DEFAULT_defaultUniforms SHADERS) else None)
  ∧ (vs o = None → opts_defaultUniforms opts = Some (DEFAULT_defaultUniforms SHADERS))
  ∧ opts_vs opts = VertexShader g vs'
  ∧ opts_fs opts = FragmentShader g fs'.
Proof.
  simpl. unfold initialize, uses_builtin_uniforms. simpl.
  split; [|split; [|split; [|done]]].
  - intros Hvs u ->. simpl. rewrite bool_decide_eq_false_2 by done.
    by rewrite andb_false_r.
  - intros ->. simpl. rewrite andb_true_r.
    repeat case_bool_decide; simpl; try done; naive_solver.
  - intros ->. simpl. by rewrite bool_decide_eq_true_2.
Qed.

(** ** [_getOptionsFromHandle] *)

Lemma getOptions_fold (ty : Z) (l : list Handle) : ∀ acc,
  foldl (λ opts shaderHandle,
           if ty =? GL'.VERTEX_SHADER then
             {| handle_vs := Some shaderHandle; handle_fs := handle_fs opts |}
           else if ty =? GL'.FRAGMENT_SHADER then
             {| handle_vs := handle_vs opts; handle_fs := Some shaderHandle |}
           else opts) acc l
  = if ty =? GL'.VERTEX_SHADER then
      {| handle_vs := from_option Some (handle_vs acc) (last l);
         handle_fs := handle_fs acc |}
    else if ty =? GL'.FRAGMENT_SHADER then
      {| handle_vs := handle_vs acc;
         handle_fs := from_option Some (handle_fs acc) (last l) |}
    else acc.
Proof.
  induction l as [|x l IH] using rev_ind; intros acc.
  { simpl. destruct acc. by repeat case_match. }
  rewrite foldl_app, last_snoc, IH. simpl. by repeat case_match.
Qed.

(** X10: [_getOptionsFromHandle] asks the shader type of [this.handle]
    and not of the shader at hand, so every attached shader is filed
    under the same type: the result never holds both a vertex and a
    fragment shader.  If the type answered is VERTEX_SHADER it holds the
    last attached shader as [vs] and no [fs]; if FRAGMENT_SHADER, the
    last one as [fs] and no [vs]; otherwise neither. *)
Theorem getOptionsFromHandle_one_kind
    (getAttachedShaders : Handle → list Handle) (getShaderParameter : Handle → Z → Z)
    (this : Program) (h : Handle) :
  let opts := _getOptionsFromHandle getAttachedShaders getShaderParameter this h in
  let ty := getShaderParameter (handle this) GL'.SHADER_TYPE in
  (handle_vs opts = None ∨ handle_fs opts = None)
  ∧ (ty = GL'.VERTEX_SHADER →
     handle_vs opts = last (getAttachedShaders h) ∧ handle_fs opts = None)
  ∧ (ty = GL'.FRAGMENT_SHADER →
     handle_fs opts = last (getAttachedShaders h) ∧ handle_vs opts = None)
  ∧ (ty ≠ GL'.VERTEX_SHADER → ty ≠ GL'.FRAGMENT_SHADER →
     handle_vs opts = None ∧ handle_fs opts = None).
Proof.
  simpl. unfold _getOptionsFromHandle. rewrite getOptions_fold. simpl.
  destruct (getShaderParameter (handle this) GL'.SHADER_TYPE =? GL'.VERTEX_SHADER) eqn:Hv.
  { apply Z.eqb_eq in Hv. rewrite Hv. simpl.
    split; [by right|]. split; [intros _; split; [by destruct (last _)|done]|].
    split; [done|]. by intros []. }
  destruct (getShaderParameter (handle this) GL'.SHADER_TYPE =? GL'.FRAGMENT_SHADER) eqn:Hf.
  { apply Z.eqb_eq in Hf. rewrite Hf. simpl.
    split; [by left|]. split; [done|].
    split; [intros _; split; [by destruct (last _)|done]|]. by intros _ []. }
  apply Z.eqb_neq in Hv, Hf. simpl. split; [by left|]. by repeat split.
Qed.

(** ** [unsetBuffers] and [_areAllAttributesEnabled] *)

Lemma allEnabled_spec s (slots : list nat) :
  allEnabled s slots = true ↔ ∀ i, i ∈ slots → i ∈ enabled s.
Proof.
  induction slots as [|i slots IH]; simpl.
  { split; [|done]. intros _ i Hi. by apply elem_of_nil in Hi. }
  unfold isEnabled. case_bool_decide as Hi; simpl.
  - rewrite IH. split.
    + intros H j [->|Hj]%elem_of_cons; [done|by apply H].
    + intros H j Hj. apply H, elem_of_cons. by right.
  - split; [done|]. intros H. destruct Hi. apply H, elem_of_cons. by left.
Qed.

(** X11: [_areAllAttributesEnabled] answers true exactly when every
    slot below [attributeCount] is enabled, slot 0 included; so it is
    true on a program without attributes, and after [unsetBuffers] it
    is false as soon as the program has two attributes, and with one
    attribute only it is what the flag of slot 0 was before.  A second
    [unsetBuffers] changes nothing. *)
Theorem areAllAttributesEnabled_after_unsetBuffers (this : Program) (s : GPU) :
  let s' := exec (gl this) (unsetBuffers this).2 s in
  (_areAllAttributesEnabled this s = true
   ↔ ∀ i : nat, (i < _attributeCount this)%nat → i ∈ enabled s)
  ∧ (_attributeCount this = 0%nat → _areAllAttributesEnabled this s = true)
  ∧ ((2 ≤ _attributeCount this)%nat → _areAllAttributesEnabled this s' = false)
  ∧ (_attributeCount this = 1%nat →
     _areAllAttributesEnabled this s' = bool_decide (0%nat ∈ enabled s))
  ∧ exec (gl this) (unsetBuffers this).2 s' = s'.
Proof.
  intros s'.
  assert (Hspec : ∀ s0, _areAllAttributesEnabled this s0 = true
                        ↔ ∀ i : nat, (i < _attributeCount this)%nat → i ∈ enabled s0).
  { intros s0. unfold _areAllAttributesEnabled. rewrite allEnabled_spec.
    split; intros H i Hi; apply H; [apply elem_of_range; lia|].
    apply elem_of_range in Hi. lia. }
  assert (He : enabled s' = enabled s ∖ list_to_set (range 1 (_attributeCount this))).
  { unfold s', unsetBuffers. simpl. rewrite exec_app, exec_disable. simpl.
    by rewrite decide_True. }
  split; [apply Hspec|]. split.
  { intros H0. apply Hspec. intros i Hi. lia. }
  split.
  { intros H2. apply not_true_is_false. rewrite Hspec. intros H.
    specialize (H 1%nat ltac:(lia)). rewrite He in H.
    apply elem_of_difference in H as [_ H]. apply H, elem_of_list_to_set, elem_of_range.
    lia. }
  split.
  { intros H1. apply eq_true_iff_eq. rewrite Hspec, bool_decide_eq_true, H1.
    assert (0%nat ∈ enabled s' ↔ 0%nat ∈ enabled s) as H0.
    { rewrite He, elem_of_difference, elem_of_list_to_set, elem_of_range.
      split; [tauto|]. intros ?. split; [done|lia]. }
    rewrite <- H0. split; [intros H; apply H; lia|].
    intros H i Hi. by replace i with 0%nat by lia. }
  unfold s', unsetBuffers. simpl. rewrite !exec_app, !exec_disable.
  unfold exec. simpl. rewrite !decide_True by done. unfold with_enabled. simpl.
  f_equal.
  - set_solver.
  - by rewrite delete_delete_eq.
Qed.

(** ** Arrays: [a[i] = x] *)




(** ** [_sortBuffersByLocation]: the slots of the supplied names *)


(** The three cases of the read [this._attributeLocations[bufferName]]:
    the location of an attribute, a member of [Object.prototype], or
    [undefined]. *)
Ltac read_location this bufferName Hloc :=
  unfold js_read;
  destruct (js_get (_attributeLocations this) bufferName) as [location|] eqn:Hloc;
    [|destruct (bool_decide (bufferName ∈ Object_prototype))]; simpl.




(** ** The slot loop of [setBuffers], slot by slot *)

#[local] Arguments exec : simpl never.







(** ** [setBuffers], step by step *)

Lemma set_warn_filled_id p :
  set_warn (_warn p) (set_filledLocations (_filledLocations p) p) = p.
Proof. by destruct p. Qed.

(** A call on a map, read off the result of the sort: what is thrown,
    which calls are issued in which order, what is filled and what is
    written to [drawParams]. *)
Lemma setBuffers_inv {host : Host} this buffers o dp :
  let r := setBuffers this (MapOfBuffers buffers) o dp in
  let this1 := if clear o then set_filledLocations ∅ this else this in
  let sort := sortLoop this1 buffers (replicate (_attributeCount this) None) None in
  Forall (λ e, is_log_warn e = true) sort.2
  ∧ after r = set_warn (_warn (after r))
                (set_filledLocations (_filledLocations (after r)) this)
  ∧ match sort.1.1 with
    | Throw e =>
        outcome r = Throw e ∧ calls r = sort.2
        ∧ _filledLocations (after r) = _filledLocations this1
    | Ok sorted =>
        let bl := bindLoop (gl this) buffers 0 (locations sorted) false
                           (_filledLocations this1) in
        _filledLocations (after r) = bl.1.2
        ∧ drawParams.isInstanced (params r) = bl.1.1
        ∧ drawParams.isIndexed (params r)
          = js_truthy (elements sorted) && negb (is_Throw (outcome r))
        ∧ ∃ es_tail,
            calls r = sort.2 ++ bl.2 ++ es_tail
            ∧ Forall (λ e, is_log_warn e = true ∨ is_Buffer_bind e = true) es_tail
            ∧ if js_truthy (elements sorted) then
                match js_get buffers (js_key (elements sorted)) with
                | Some buffer =>
                    outcome r = Ok tt
                    ∧ drawParams.indexType (params r) = Some (type (layout buffer))
                    ∧ ∃ es_check, es_tail = Buffer_bind buffer :: es_check
                                  ∧ Forall (λ e, is_log_warn e = true) es_check
                | None => outcome r = Throw (TypeError "buffer") ∧ es_tail = []
                end
              else
                outcome r = Ok tt
                ∧ drawParams.indexType (params r) = None
                ∧ Forall (λ e, is_log_warn e = true) es_tail
    end.
Proof.
  intros r this1 sort. subst r sort. unfold setBuffers, _sortBuffersByLocation.
  fold this1.
  assert (H1 : ∃ w, this1 = set_warn w (set_filledLocations (_filledLocations this1) this)).
  { unfold this1. destruct (clear o); simpl.
    - exists (_warn this). by destruct this.
    - exists (_warn this). by rewrite set_warn_filled_id. }
  assert (Hn : _attributeCount this1 = _attributeCount this)
    by (unfold this1; by destruct (clear o)).
  rewrite Hn. clearbody this1.
  set (locs := replicate (_attributeCount this) None).
  destruct (sortLoop_this buffers this1 locs None) as [Ht Hl].
  destruct (sortLoop this1 buffers locs None) as [[o2 this2] es]; simpl in *.
  assert (H2 : ∃ w, this2 = set_warn w (set_filledLocations (_filledLocations this1) this)).
  { destruct H1 as [w1 H1]. exists (_warn this2). rewrite Ht at 1. by rewrite H1 at 1. }
  clear Ht. destruct H2 as [w2 ->]. simpl.
  destruct o2 as [sorted|e]; simpl; [|done].
  split; [done|].
  destruct (bindLoop (gl this) buffers 0 (locations sorted) false
                     (_filledLocations this1)) as [[i f'] es_bind].
  assert (Hcheck : ∃ this4 es_check,
             (if check o
              then _checkBuffers (set_filledLocations f'
                     (set_warn w2 (set_filledLocations (_filledLocations this1) this)))
              else (set_filledLocations f'
                      (set_warn w2 (set_filledLocations (_filledLocations this1) this)),
                    [])) = (this4, es_check)
             ∧ (∃ w, this4 = set_warn w (set_filledLocations f' this))
             ∧ Forall (λ e, is_log_warn e = true) es_check).
  { destruct (check o).
    - unfold _checkBuffers.
      destruct (checkLoop_this
                  (_attributeLocations (set_filledLocations f'
                     (set_warn w2 (set_filledLocations (_filledLocations this1) this))))
                  (set_filledLocations f'
                     (set_warn w2 (set_filledLocations (_filledLocations this1) this))))
        as [Hc Hcl].
      destruct (checkLoop _ _) as [this4 es_check]. simpl in *.
      exists this4, es_check. split; [done|]. split; [|done].
      exists (_warn this4). by rewrite Hc at 1.
    - eexists _, []. split; [done|]. split; [|done]. by exists w2. }
  destruct Hcheck as (this4 & es_check & Hk & [w4 ->] & Hcl).
  destruct (js_truthy (elements sorted)).
  - destruct (js_get buffers (js_key (elements sorted))) as [buffer|]; simpl.
    + rewrite Hk. simpl. repeat (split; [done|]).
      exists (Buffer_bind buffer :: es_check). split; [done|]. split.
      { constructor; [by right|]. eapply Forall_impl; [exact Hcl|]. by left. }
      split; [done|]. split; [done|]. by exists es_check.
    + repeat (split; [done|]). exists []. by rewrite app_nil_r.
  - rewrite Hk. simpl. repeat (split; [done|]).
    exists es_check. split; [done|]. split; [|done].
    eapply Forall_impl; [exact Hcl|]. by left.
Qed.

(** A call that succeeds. *)
Lemma setBuffers_Ok_inv {host : Host} this buffers o dp :
  let r := setBuffers this (MapOfBuffers buffers) o dp in
  outcome r = Ok tt →
  ∃ this1 sorted es_sort es_tail,
    _attributeLocations this1 = _attributeLocations this
    ∧ _filledLocations this1 = (if clear o then ∅ else _filledLocations this)
    ∧ (sortLoop this1 buffers (replicate (_attributeCount this) None) None).1.1
      = Ok sorted
    ∧ let bl := bindLoop (gl this) buffers 0 (locations sorted) false
                         (_filledLocations this1) in
      calls r = es_sort ++ bl.2 ++ es_tail
      ∧ Forall (λ e, is_log_warn e = true) es_sort
      ∧ Forall (λ e, is_log_warn e = true ∨ is_Buffer_bind e = true) es_tail
      ∧ _filledLocations (after r) = bl.1.2
      ∧ drawParams.isInstanced (params r) = bl.1.1
      ∧ drawParams.isIndexed (params r) = js_truthy (elements sorted)
      ∧ if js_truthy (elements sorted) then
          ∃ buffer es_check,
            js_get buffers (js_key (elements sorted)) = Some buffer
            ∧ drawParams.indexType (params r) = Some (type (layout buffer))
            ∧ es_tail = Buffer_bind buffer :: es_check
            ∧ Forall (λ e, is_log_warn e = true) es_check
        else
          drawParams.indexType (params r) = None
          ∧ Forall (λ e, is_log_warn e = true) es_tail.
Proof.
  intros r Hok.
  destruct (setBuffers_inv this buffers o dp) as (Hl & _ & H). fold r in H.
  set (this1 := if clear o then set_filledLocations ∅ this else this) in *.
  exists this1.
  destruct ((sortLoop this1 buffers (replicate (_attributeCount this) None) None).1.1)
    as [sorted|e] eqn:Hs.
  2: { destruct H as (H & _). congruence. }
  exists sorted, (sortLoop this1 buffers (replicate (_attributeCount this) None) None).2.
  destruct H as (Hf & Hi & Hx & es_tail & Hc & Ht & Hcase).
  exists es_tail.
  split; [unfold this1; by destruct (clear o)|].
  split; [unfold this1; by destruct (clear o)|].
  split; [done|]. simpl.
  split; [done|]. split; [done|]. split; [done|]. split; [done|]. split; [done|].
  rewrite Hok in Hx. simpl in Hx. rewrite andb_true_r in Hx. split; [done|].
  destruct (js_truthy (elements sorted)).
  - destruct (js_get buffers (js_key (elements sorted))) as [buffer|].
    + destruct Hcase as (_ & Hty & es_check & -> & Hcl). by exists buffer, es_check.
    + destruct Hcase as [Hthrow _]. congruence.
  - by destruct Hcase as (_ & Hty & Hcl).
Qed.


(** ** [setBuffers]: the supplied buffers and the slots *)








(** ** [setBuffers]: warnings *)













(** Three buffers of another target than the index target, under the
    name of a member of [Array.prototype], of a member of
    [Object.prototype] and under an ordinary name: the first reads no
    location and finds [_warn] truthy, the second reads a location that
    is a function; only the third is warned about. *)
Example setBuffers_names_of_the_prototypes :
  let g := instancing_context in
  calls (setBuffers (example_program g)
           (MapOfBuffers [("values", vertex_buffer 1%nat false);
                          ("toString", vertex_buffer 2%nat false);
                          ("colors", vertex_buffer 3%nat false)])
           {| clear := true; check := false |} no_params)
  = [log_warn 2 (NotUsed "demo-program" "colors");
     VertexAttributes_disable g 0;
     VertexAttributes_disable g 1].
Proof. vm_compute. reflexivity. Qed.

(** ** [setBuffers]: the index buffer *)


(** A designated index buffer with a non-empty name stays designated. *)
Lemma sortLoop_designated_kept {host : Host} entries : ∀ this locs el sorted,
  (sortLoop this entries locs el).1.1 = Ok sorted →
  js_truthy el = true → elements sorted = el.
Proof.
  induction entries as [|[bufferName buffer] rest IH]; intros this locs el sorted; simpl.
  { by intros [= <-]. }
  intros Hok Hel.
  destruct (js_read (_attributeLocations this) bufferName) as [location|].
  { destruct (is_element_array buffer); [done|]. eapply IH; eauto. }
  destruct (is_element_array buffer); simpl in Hok.
  { by rewrite Hel in Hok. }
  destruct (js_array_has (_warn this) bufferName); simpl in Hok; [eapply IH; eauto|].
  specialize (IH (set_warn ({[bufferName]} ∪ _warn this) this) locs el sorted).
  destruct (sortLoop _ rest locs el) as [[? ?] ?]. simpl in *. by apply IH.
Qed.

Lemma sortLoop_designates {host : Host} entries : ∀ this locs el sorted n b,
  (sortLoop this entries locs el).1.1 = Ok sorted →
  (n, b) ∈ entries → index_only this (n, b) = true → n ≠ "" →
  elements sorted = Some n.
Proof.
  induction entries as [|[bufferName buffer] rest IH]; intros this locs el sorted n b;
    simpl.
  { intros _ Hin. by apply elem_of_nil in Hin. }
  intros Hok Hin Hio Hne.
  apply elem_of_cons in Hin as [[= <- <-]|Hin].
  - unfold index_only, has_location in Hio. simpl in Hio. unfold js_read in Hok.
    destruct (js_get (_attributeLocations this) n) as [location|]; [done|].
    simpl in Hio. rewrite Hio in Hok.
    destruct (bool_decide (n ∈ Object_prototype)); simpl in Hok; [done|].
    destruct (js_truthy el); [done|].
    apply (sortLoop_designated_kept rest this locs (Some n) sorted Hok).
    simpl. by apply negb_true_iff, String.eqb_neq.
  - destruct (js_read (_attributeLocations this) bufferName) as [location|].
    { destruct (is_element_array buffer); [done|]. eapply IH; eauto. }
    destruct (is_element_array buffer); simpl in Hok.
    { destruct (js_truthy el); [done|]. eapply IH; eauto. }
    destruct (js_array_has (_warn this) bufferName); simpl in Hok; [eapply IH; eauto|].
    specialize (IH (set_warn ({[bufferName]} ∪ _warn this) this) locs el sorted n b).
    destruct (sortLoop _ rest locs el) as [[? ?] ?]. simpl in *. by apply IH.
Qed.

(** The designated index buffer names no attribute and declares the
    index target. *)
Lemma sortLoop_elements_index {host : Host} entries : ∀ this locs el sorted,
  (sortLoop this entries locs el).1.1 = Ok sorted →
  elements sorted = el
  ∨ ∃ n b, (n, b) ∈ entries ∧ index_only this (n, b) = true ∧ elements sorted = Some n.
Proof.
  induction entries as [|[bufferName buffer] rest IH]; intros this locs el sorted; simpl.
  { intros [= <-]. by left. }
  intros Hok.
  assert (Hrest : ∀ x : option string,
            (elements sorted = x
             ∨ ∃ n b, (n, b) ∈ rest ∧ index_only this (n, b) = true
                      ∧ elements sorted = Some n) →
            x = el ∨ (x = Some bufferName ∧ index_only this (bufferName, buffer) = true) →
            elements sorted = el
            ∨ ∃ n b, (n, b) ∈ (bufferName, buffer) :: rest
                     ∧ index_only this (n, b) = true ∧ elements sorted = Some n).
  { intros x [Hx|(n & b & Hin & Hio & Hs)] Hcase.
    - destruct Hcase as [-> | [-> Hio]]; [by left|]. right. exists bufferName, buffer.
      split; [apply elem_of_cons; by left|done].
    - right. exists n, b. split; [apply elem_of_cons; by right|done]. }
  revert Hok. read_location this bufferName Hloc; intros Hok.
  { destruct (is_element_array buffer); [done|].
    apply (Hrest el); [eapply IH; eauto|by left]. }
  { destruct (is_element_array buffer); [done|].
    apply (Hrest el); [eapply IH; eauto|by left]. }
  destruct (is_element_array buffer) eqn:Hel; simpl in Hok.
  { destruct (js_truthy el); [done|].
    apply (Hrest (Some bufferName)); [eapply IH; eauto|].
    right. split; [done|]. unfold index_only, has_location. simpl.
    by rewrite Hloc, Hel. }
  destruct (js_array_has (_warn this) bufferName); simpl in Hok.
  { apply (Hrest el); [eapply IH; eauto|by left]. }
  specialize (IH (set_warn ({[bufferName]} ∪ _warn this) this) locs el sorted).
  destruct (sortLoop _ rest locs el) as [[? ?] ?]. simpl in *.
  apply (Hrest el); [by apply IH|by left].
Qed.




(** X17: after a [setBuffers] that succeeds, a buffer of the map that
    declares the index target under a non-empty name that is no
    attribute name is the index buffer of the draw: [isIndexed] is
    true, [indexType] is the [type] of its layout, it is bound through
    [buffer.bind()] and is the buffer bound to ELEMENT_ARRAY_BUFFER
    afterwards.  Conversely [isIndexed] is true only if the map holds
    such a buffer. *)
Theorem setBuffers_designates_index_buffer {host : Host}
    (this : Program) (buffers : list (string * Buffer)) (o : SetBuffersOpts)
    (dp : drawParams.t) (s : GPU) :
  let r := setBuffers this (MapOfBuffers buffers) o dp in
  outcome r = Ok tt →
  (∀ n b, js_get buffers n = Some b → index_only this (n, b) = true → n ≠ "" →
     drawParams.isIndexed (params r) = true
     ∧ drawParams.indexType (params r) = Some (type (layout b))
     ∧ Buffer_bind b ∈ calls r
     ∧ bound (exec (gl this) (calls r) s) !! GL.ELEMENT_ARRAY_BUFFER = Some b)
  ∧ (drawParams.isIndexed (params r) = true →
     ∃ n b, (n, b) ∈ buffers ∧ index_only this (n, b) = true ∧ n ≠ "").
Proof.
  intros r Hok.
  destruct (setBuffers_Ok_inv this buffers o dp Hok)
    as (this1 & sorted & es_sort & es_tail & Ha & Hf1 & Hs & Hinv).
  cbv zeta in Hinv. destruct Hinv as (Hc & Hes & Het & _ & _ & Hx & Hcase).
  fold r in Hc, Hx, Hcase.
  assert (Hio : ∀ e, index_only this1 e = index_only this e).
  { intros e. unfold index_only, has_location. by rewrite Ha. }
  split.
  - intros n b Hb Hidx Hne.
    assert (He : elements sorted = Some n).
    { apply (sortLoop_designates buffers this1 _ None sorted n b Hs);
        [by apply js_get_Some_entry|by rewrite Hio|done]. }
    rewrite He in Hx, Hcase. simpl in Hx, Hcase.
    assert (Ht : negb (String.eqb n "") = true)
      by (by apply negb_true_iff, String.eqb_neq).
    rewrite Ht in Hx, Hcase.
    destruct Hcase as (buffer & es_check & Hb' & Hty & -> & Hcl).
    rewrite Hb in Hb'. injection Hb' as <-.
    split; [done|]. split; [done|]. rewrite Hc. split.
    { rewrite !elem_of_app. right. right. apply elem_of_cons. by left. }
    rewrite !exec_app, exec_cons, (exec_log_warn _ es_check _ Hcl). simpl.
    unfold index_only in Hidx. apply andb_true_iff in Hidx as [_ Hel].
    unfold is_element_array in Hel. simpl in Hel.
    apply Z.eqb_eq in Hel. rewrite Hel. apply lookup_insert_eq.
  - intros Hi. rewrite Hi in Hx.
    destruct (sortLoop_elements_index buffers this1 _ None sorted Hs)
      as [He|(n & b & Hin & Hidx & He)].
    { by rewrite He in Hx. }
    exists n, b. split; [done|]. split; [by rewrite <- Hio|].
    intros ->. by rewrite He in Hx.
Qed.

Lemma setBuffers_designates_index_buffer_witness :
  let g := instancing_context in
  let r := setBuffers (example_program g) (MapOfBuffers positions_and_indices)
                      defaults no_params in
  drawParams.isIndexed (params r) = true
  ∧ drawParams.indexType (params r) = Some GL.UNSIGNED_SHORT
  ∧ bound (exec g (calls r) used_context) !! GL.ELEMENT_ARRAY_BUFFER
    = Some (index_buffer 3%nat).
Proof.
  intros g r.
  assert (Hok : outcome r = Ok tt) by (vm_compute; reflexivity).
  destruct (proj1 (setBuffers_designates_index_buffer (example_program g)
                     positions_and_indices defaults no_params used_context Hok)
              "indices" (index_buffer 3%nat) eq_refl eq_refl ltac:(discriminate))
    as (H1 & H2 & _ & H3).
  split; [exact H1|]. split; [exact H2|exact H3].
Defined.

(** ** [setBuffers]: what is filled, and what is never written *)


(** X19: whatever it is given and whether it succeeds or throws,
    [setBuffers] writes no field of the program but [_warn] and
    [_filledLocations]: the attribute locations and count found at link
    time, the uniform setters and the texture-unit counter are as they
    were.  Given an array it throws before doing anything: the program
    and [drawParams] are untouched and no call is issued.  Given a map
    it never reads [drawParams]: the result is the same whatever the
    object held. *)
Theorem setBuffers_keeps_introspection {host : Host}
    (this : Program) (arg : BuffersArg) (o : SetBuffersOpts) (dp : drawParams.t) :
  let r := setBuffers this arg o dp in
  after r = set_warn (_warn (after r))
              (set_filledLocations (_filledLocations (after r)) this)
  ∧ _attributeLocations (after r) = _attributeLocations this
  ∧ _attributeCount (after r) = _attributeCount this
  ∧ _uniformSetters (after r) = _uniformSetters this
  ∧ _textureIndexCounter (after r) = _textureIndexCounter this
  ∧ (∀ a, arg = ArrayOfBuffers a →
          r = {| outcome := Throw ExpectsMapOfBuffers; after := this;
                 params := dp; calls := [] |})
  ∧ (∀ m dp', arg = MapOfBuffers m → setBuffers this arg o dp' = r).
Proof.
  intros r.
  assert (Hframe : after r = set_warn (_warn (after r))
                     (set_filledLocations (_filledLocations (after r)) this)).
  { subst r. destruct arg as [a|m].
    - simpl. by rewrite set_warn_filled_id.
    - by destruct (setBuffers_inv this m o dp) as (_ & H & _). }
  split; [done|]. rewrite Hframe. simpl. repeat (split; [done|]).
  split.
  - by intros a ->.
  - by intros m dp' ->.
Qed.

(** ** [setBuffers]: whose mark [isInstanced] carries *)




(** ** [setBuffers]: entries that are passed over *)





